(** * object-locator/utils.py: thresholding, clustering and small utilities

    A shallow embedding of [utils.py].  Real-valued arrays are modelled over
    the rationals [Q] wherever the code only compares, adds, multiplies and
    divides (so that the definitions evaluate), and over [R] where the code
    takes square roots.  Python exceptions are an explicit [result] type.
    The library functions the module calls are definitions where their
    result is determined ([np], [cv2.inRange], the binarisation of
    [cv2.threshold]); the beta-mixture fitter, the EM iteration, the
    shuffle and the level found by OpenCV's Otsu search are parameters. *)

From Stdlib Require Import ZArith QArith Qround Qminmax List Bool Lia Lqa.
From Stdlib Require Import Permutation Reals Psatz.
Import ListNotations.

Set Implicit Arguments.

Local Open Scope Q_scope.

(** ** Exceptions and the error monad *)

Inductive exn : Type :=
| AssertionError
| ValueError
| IndexError
| FitError
| CvError.

Inductive result (A : Type) : Type :=
| Ok (a : A)
| Raise (e : exn).

Arguments Ok {A} a.
Arguments Raise {A} e.

Definition bind {A B : Type} (r : result A) (k : A -> result B) : result B :=
  match r with
  | Ok a => k a
  | Raise e => Raise e
  end.

Notation "x <- c ;; k" := (bind c (fun x => k))
  (at level 61, c at next level, right associativity).
Notation "' p <- c ;; k" := (bind c (fun x => match x with p => k end))
  (at level 61, p pattern, c at next level, right associativity).

Definition assert (b : bool) : result unit :=
  if b then Ok tt else Raise AssertionError.

Definition raises {A : Type} (r : result A) : Prop :=
  exists e, r = Raise e.

(** ** Arrays

    A numpy array is its shape together with its elements in row-major
    order. *)

Record ndarray (A : Type) : Type := mk_ndarray {
  shape : list nat;
  data : list A
}.

Definition ndim {A} (a : ndarray A) : nat := length (shape a).

Definition array_map {A B} (f : A -> B) (a : ndarray A) : ndarray B :=
  {| shape := shape a; data := map f (data a) |}.

Module np.

(** [array.min()] and [array.max()]: a [ValueError] on an empty array. *)
Definition min (l : list Q) : result Q :=
  match l with
  | [] => Raise ValueError
  | x :: t => Ok (fold_left Qmin t x)
  end.

Definition max (l : list Q) : result Q :=
  match l with
  | [] => Raise ValueError
  | x :: t => Ok (fold_left Qmax t x)
  end.

(** [ndarray.round()]: halves go to the even neighbour. *)
Definition round (q : Q) : Z :=
  let f := Qfloor q in
  match ((q - inject_Z f) ?= (1 # 2))%Q with
  | Lt => f
  | Gt => (f + 1)%Z
  | Eq => if Z.even f then f else (f + 1)%Z
  end.

(** [astype(np.uint8)] of an integral value. *)
Definition uint8 (z : Z) : Z := (z mod 256)%Z.

(** [astype(np.int)] of a real: the fractional part is dropped. *)
Definition astype_int (q : Q) : Z := Z.quot (Qnum q) (Z.pos (Qden q)).

(** [ndarray.squeeze()]: axes of length one disappear. *)
Definition squeeze {A} (a : ndarray A) : ndarray A :=
  {| shape := filter (fun n => negb (n =? 1)%nat) (shape a); data := data a |}.

(** [ndarray.flatten()]. *)
Definition flatten {A} (a : ndarray A) : list A := data a.

(** A float as numpy computes with it: a finite value, or one of [inf],
    [-inf] and [nan]. *)
Inductive float : Type :=
| Finite (q : Q)
| NotFinite.

(** [a / b] on floats: dividing by zero gives [inf], [-inf] or [nan]
    (with a warning), not an exception. *)
Definition divide (a b : Q) : float :=
  if Qeq_bool b 0 then NotFinite else Finite (a / b).

(** [a * b] on floats: a product with [inf] or [nan] is [inf] or [nan]. *)
Definition multiply (a b : float) : float :=
  match a, b with
  | Finite x, Finite y => Finite (x * y)
  | _, _ => NotFinite
  end.

(** [np.finfo(np.float64).max], the largest finite double. *)
Definition float64_max : Q := inject_Z (2 ^ 1024 - 2 ^ 971).

End np.

Module cv2.

(** An OpenCV matrix has at least two axes: a numpy vector of length [n]
    comes back with shape [(n, 1)]. *)
Definition Mat_shape (s : list nat) : list nat :=
  match s with
  | [] => [1; 1]%nat
  | [n] => [n; 1]%nat
  | _ => s
  end.

Definition CV_CN_MAX : nat := 512.

(** A numpy array of three axes whose last axis has at most [CV_CN_MAX]
    entries is read as an image of two axes with that many channels:
    [Some (h, w, c)].  Every other array is a single-channel matrix. *)
Definition channels (s : list nat) : option (nat * nat * nat) :=
  match s with
  | [h; w; c] => if (c <=? CV_CN_MAX)%nat then Some (h, w, c) else None
  | _ => None
  end.

(** A Python number given as a bound is the 4-scalar [(v, 0, 0, 0)]. *)
Definition scalar4 (v : Q) : list Q := [v; 0; 0; 0].

(** One element of a single-channel matrix: 255 where
    [lowerb <= src <= upperb], 0 elsewhere. *)
Definition inRange1 (lowerb upperb v : Q) : Z :=
  if Qle_bool lowerb v && Qle_bool v upperb then 255%Z else 0%Z.

(** One pixel of a multi-channel image: every channel has to lie between
    its own bounds. *)
Fixpoint inRange_channels (lowerb upperb px : list Q) : bool :=
  match px, lowerb, upperb with
  | [], _, _ => true
  | v :: px', lo :: lowerb', hi :: upperb' =>
      Qle_bool lo v && Qle_bool v hi && inRange_channels lowerb' upperb' px'
  | _ :: _, _, _ => false
  end.

(** The mask element of one pixel, for two Python numbers as bounds. *)
Definition inRange_pixel (lowerb upperb : Q) (px : list Q) : Z :=
  if inRange_channels (scalar4 lowerb) (scalar4 upperb) px
  then 255%Z else 0%Z.

(** The [c] channel values of pixel number [p]. *)
Definition pixel (c : nat) (l : list Q) (p : nat) : list Q :=
  firstn c (skipn (p * c) l).

(** [cv2.inRange(src, lowerb, upperb)] with two Python numbers as bounds.
    An empty source is refused.  On a single-channel matrix the mask has
    the shape of the matrix and is computed element by element.  On an
    image with channels the mask has one element per pixel, and scalar
    bounds serve at most four channels. *)
Definition inRange (src : ndarray Q) (lowerb upperb : Q)
  : result (ndarray Z) :=
  match data src with
  | [] => Raise CvError
  | _ :: _ =>
      match channels (shape src) with
      | Some (h, w, c) =>
          if (c <=? 4)%nat then
            Ok {| shape := [h; w];
                  data :=
                    map (fun p =>
                           inRange_pixel lowerb upperb (pixel c (data src) p))
                        (seq 0 (h * w)) |}
          else Raise CvError
      | None =>
          Ok {| shape := Mat_shape (shape src);
                data := map (inRange1 lowerb upperb) (data src) |}
      end
  end.

(** The 256-bin histogram of an 8-bit image. *)
Definition levels : list Z := map Z.of_nat (seq 0 256).

Definition hist (img : list Z) : list Z :=
  map (fun i => Z.of_nat (count_occ Z.eq_dec img i)) levels.

Definition FLT_EPSILON : Q := 1 # 8388608.

Record otsu_state : Type := mk_otsu {
  mu1 : Q;
  q1 : Q;
  max_sigma : Q;
  max_val : Z
}.

(** One iteration of the search loop of Otsu's method over level [i]
    holding [h_i] pixels. *)
Definition otsu_step (scale mu : Q) (st : otsu_state) (ih : Z * Z)
  : otsu_state :=
  let '(i, h_i) := ih in
  let p_i := Qred (inject_Z h_i * scale) in
  let mu1' := Qred (mu1 st * q1 st) in
  let q1' := Qred (q1 st + p_i) in
  let q2 := Qred (1 - q1') in
  if Qlt_le_dec (Qmin q1' q2) FLT_EPSILON
  then {| mu1 := mu1'; q1 := q1'; max_sigma := max_sigma st;
          max_val := max_val st |}
  else if Qlt_le_dec (1 - FLT_EPSILON) (Qmax q1' q2)
  then {| mu1 := mu1'; q1 := q1'; max_sigma := max_sigma st;
          max_val := max_val st |}
  else
    let mu1'' := Qred ((mu1' + inject_Z i * p_i) / q1') in
    let mu2 := Qred ((mu - q1' * mu1'') / q2) in
    let sigma := Qred (q1' * q2 * (mu1'' - mu2) * (mu1'' - mu2)) in
    if Qlt_le_dec (max_sigma st) sigma
    then {| mu1 := mu1''; q1 := q1'; max_sigma := sigma; max_val := i |}
    else {| mu1 := mu1''; q1 := q1'; max_sigma := max_sigma st;
            max_val := max_val st |}.

(** Otsu's search in exact arithmetic: the first level that maximises the
    between-class variance.  OpenCV runs the same loop in double
    precision, where two levels of equal variance are told apart by
    rounding; the level OpenCV reports is therefore a parameter of
    [threshold_binary_otsu], and this search is one instance of it. *)
Definition otsu (img : list Z) : Z :=
  let h := hist img in
  let scale := Qred (1 / inject_Z (Z.of_nat (length img))) in
  let mu := Qred (fold_left
                    (fun acc ih => acc + inject_Z (fst ih) * inject_Z (snd ih))
                    (combine levels h) 0 * scale) in
  max_val (fold_left (otsu_step scale mu) (combine levels h)
                     {| mu1 := 0; q1 := 0; max_sigma := 0; max_val := 0%Z |}).

(** [THRESH_BINARY]: [maxval] strictly above the threshold, 0 elsewhere. *)
Definition binary1 (thresh maxval v : Z) : Z :=
  if (thresh <? v)%Z then maxval else 0%Z.

(** [cv2.threshold(src, thresh, maxval, THRESH_BINARY + THRESH_OTSU)] on
    an 8-bit image: the given [thresh] is ignored, the level
    [otsu_level] of the Otsu search is returned and used for the
    binarisation.  The search takes single-channel images only: an array
    of more than two axes is refused, and so is an empty one. *)
Definition threshold_binary_otsu (otsu_level : list Z -> Z)
    (src : ndarray Z) (thresh maxval : Z) : result (Z * ndarray Z) :=
  match data src with
  | [] => Raise CvError
  | _ :: _ =>
      if (ndim src <=? 2)%nat then
        let t := otsu_level (data src) in
        Ok (t, {| shape := Mat_shape (shape src);
                  data := map (binary1 t maxval) (data src) |})
      else Raise CvError
  end.

End cv2.

(** ** Frozen beta distributions, [scipy.stats.beta(a, b)] *)

Module scipy.

Record beta : Type := mk_beta { a : Q; b : Q }.

(** [rv.mean()] of a beta distribution. *)
Definition mean (rv : beta) : Q := a rv / (a rv + b rv).

End scipy.

(** ** [threshold] *)

(** What [threshold] returns: a pair [(mask, tau)], or for [tau == -2] the
    triple [(mask, tau, ((rv1, pi1), (rv2, pi2)))]. *)
Inductive threshold_result : Type :=
| Mask_tau (mask : ndarray Z) (tau : Q)
| Mask_tau_mixture (mask : ndarray Z) (tau : Q)
    (mixture : (scipy.beta * Q) * (scipy.beta * Q)).

(** The result of [bmm.estimate]: shape parameters, weights, iterations. *)
Definition bmm_fit : Type := ((Q * Q) * (Q * Q)) * (Q * Q) * Z.

Section Threshold.

(** The level the Otsu search of [cv2.threshold] reports for an 8-bit
    image. *)
Variable otsu_level : list Z -> Z.

(** [bmm.estimate(x, components)], the beta-mixture fitter the module
    imports; it may fail. *)
Variable estimate : list Q -> list Z -> result bmm_fit.

(** [((array - minn)/(maxx - minn)*255).round().astype(np.uint8).squeeze()].
    On a constant array the quotient is 0/0; the rationals give it the
    value 0, which is also what the cast of [nan] to [uint8] yields. *)
Definition array_scaled (array : ndarray Q) (minn maxx : Q) : ndarray Z :=
  np.squeeze
    (array_map
       (fun v => np.uint8 (np.round ((v - minn) / (maxx - minn) * 255)))
       array).

Definition threshold (array : ndarray Q) (tau : Q) : result threshold_result :=
  if Qeq_bool tau (-1) then
    minn <- np.min (data array) ;;
    maxx <- np.max (data array) ;;
    tm <- cv2.threshold_binary_otsu otsu_level
            (array_scaled array minn maxx) 0 255 ;;
    let '(tau, mask) := tm in
    let tau := minn + (inject_Z tau / 255) * (maxx - minn) in
    Ok (Mask_tau mask tau)
  else if Qeq_bool tau (-2) then
    let array_flat := np.flatten array in
    fit <- estimate array_flat [0; 1]%Z ;;
    let '(((a1, b1), (a2, b2)), (pi1, pi2), niter) := fit in
    let rv1 := scipy.mk_beta a1 b1 in
    let rv2 := scipy.mk_beta a2 b2 in
    let tau := scipy.mean rv2 in
    mask <- cv2.inRange array tau 1 ;;
    Ok (Mask_tau_mixture mask tau ((rv1, pi1), (rv2, pi2)))
  else
    mask <- cv2.inRange array tau 1 ;;
    Ok (Mask_tau mask tau).


(** The reading of the Otsu policy in which the mask is recomputed by
    fixed-policy masking at the mapped-back threshold. *)
Definition otsu_mask_is_fixed_mask (array : ndarray Q) : Prop :=
  exists mask tau fixed,
    threshold array (-1) = Ok (Mask_tau mask tau) /\
    cv2.inRange array tau 1 = Ok fixed /\
    data mask = data fixed.

End Threshold.


(** ** [cluster] *)

(** Indices, counted from [k], of the elements that are [> 0]. *)
Fixpoint positive_from (k : nat) (l : list Z) : list nat :=
  match l with
  | [] => []
  | v :: t => if (0 <? v)%Z then k :: positive_from (S k) t
              else positive_from (S k) t
  end.

(** [np.where(array > 0)] on a 2-D array, as [(y, x)] rows in row-major
    order: what the code builds in [c]. *)
Definition where_positive (array : ndarray Z) : list (Z * Z) :=
  match shape array with
  | [_; w] =>
      map (fun k => (Z.of_nat (k / w), Z.of_nat (k mod w)))
          (positive_from 0 (data array))
  | _ => []
  end.

(** The slice [c[:n]]: a negative [n] counts from the end. *)
Definition slice_to {A} (n : Z) (l : list A) : list A :=
  if (n <? 0)%Z then firstn (Z.to_nat (Z.of_nat (length l) + n)) l
  else firstn (Z.to_nat n) l.

Definition len {A} (l : list A) : Z := Z.of_nat (length l).

Section Cluster.

(** [np.random.shuffle(c)]: the rows in some other order. *)
Variable shuffle : list (Z * Z) -> list (Z * Z).

(** The means the EM iteration of
    [GaussianMixture(n_components, n_init=1, covariance_type='spherical')]
    converges to on the samples [c]. *)
Variable em_means : Z -> list (Z * Z) -> result (list (Q * Q)).

(** [GaussianMixture(...).fit(c).means_]: scikit-learn refuses, with a
    [ValueError], fewer than two samples, fewer samples than components,
    and a component count below one. *)
Definition GaussianMixture_fit_means (n_components : Z) (c : list (Z * Z))
  : result (list (Q * Q)) :=
  if (len c <? 2)%Z then Raise ValueError
  else if (len c <? n_components)%Z then Raise ValueError
  else if (n_components <? 1)%Z then Raise ValueError
  else em_means n_components c.

(** The sample matrix [c] and the [n_components] handed to the mixture
    model; [None] when the mask has no foreground pixel.
    [max_mask_pts = None] stands for [np.infty]. *)
Definition fit_arguments (array : ndarray Z) (n_clusters : Z)
    (max_mask_pts : option Z) : option (Z * list (Z * Z)) :=
  let c := where_positive array in
  let x_size := len c in
  if (len c =? 0)%Z then None
  else
    let c :=
      match max_mask_pts with
      | None => c
      | Some m =>
          let n_pts := Z.min (len c) m in
          slice_to n_pts (shuffle c)
      end in
    let n_components := Z.max (Z.min n_clusters x_size) 1 in
    Some (n_components, c).

Definition cluster (array : ndarray Z) (n_clusters : Z)
    (max_mask_pts : option Z) : result (list (Z * Z)) :=
  _ <- assert (ndim array =? 2)%nat ;;
  match fit_arguments array n_clusters max_mask_pts with
  | None => Ok []
  | Some (n_components, c) =>
      means <- GaussianMixture_fit_means n_components c ;;
      Ok (map (fun m => (np.astype_int (fst m), np.astype_int (snd m)))
              means)
  end.

(** The reading of [cluster] in which the centroids are the fitted means
    rounded to the nearest integer. *)
Definition centroids_are_rounded_means (array : ndarray Z) (n_clusters : Z)
    (max_mask_pts : option Z) : Prop :=
  forall n_components c means,
    fit_arguments array n_clusters max_mask_pts = Some (n_components, c) ->
    GaussianMixture_fit_means n_components c = Ok means ->
    cluster array n_clusters max_mask_pts
    = Ok (map (fun m => (np.round (fst m), np.round (snd m))) means).

End Cluster.

(** Arithmetic mean of the rows of a sample matrix. *)
Definition sample_mean (c : list (Z * Z)) : Q * Q :=
  let n := inject_Z (len c) in
  (inject_Z (fold_right Z.add 0%Z (map fst c)) / n,
   inject_Z (fold_right Z.add 0%Z (map snd c)) / n).

(** With a single component every responsibility is one, and the mean the
    EM iteration settles on is the sample mean. *)
Definition single_component_means (n_components : Z) (c : list (Z * Z))
  : result (list (Q * Q)) :=
  if (n_components =? 1)%Z then Ok [sample_mean c] else Raise FitError.

(** ** [Normalizer] *)

Module Normalizer.

(** [self.new_size = np.array([new_size_height, new_size_width])]. *)
Record t : Type := mk { new_size : Z * Z }.

(** [int(x)]: towards zero. *)
Definition int (q : Q) : Z := Z.quot (Qnum q) (Z.pos (Qden q)).

Definition init (new_size_height new_size_width : Q) : t :=
  {| new_size := (int new_size_height, int new_size_width) |}.

(** [coordinates_yx_normalized] is a sequence of [(y, x)] rows;
    [orig_img_size] is any array-like.  The empty sequence is an array of
    shape [(0,)], with which the tiled factor of shape [(0, 2)] cannot be
    multiplied: a [ValueError]. *)
Definition unnormalize (self : t)
    (coordinates_yx_normalized : list (np.float * np.float))
    (orig_img_size : ndarray Q) : result (list (np.float * np.float)) :=
  _ <- assert (ndim orig_img_size =? 1)%nat ;;
  _ <- assert (hd 0%nat (shape orig_img_size) =? 2)%nat ;;
  match data orig_img_size with
  | [h; w] =>
      let norm_factor :=
        (np.divide h (inject_Z (fst (new_size self))),
         np.divide w (inject_Z (snd (new_size self)))) in
      let norm_factor :=
        repeat norm_factor (length coordinates_yx_normalized) in
      match coordinates_yx_normalized with
      | [] => Raise ValueError
      | _ :: _ =>
          Ok (map (fun fc => (np.multiply (fst (fst fc)) (fst (snd fc)),
                              np.multiply (snd (fst fc)) (snd (snd fc))))
                  (combine norm_factor coordinates_yx_normalized))
      end
  | _ => Raise ValueError
  end.

(** The reading of [unnormalize] for every sequence of rows: with a 1-D,
    2-element [orig_img_size = [h, w]] the call returns the rows
    multiplied by the ratio of [orig_img_size] to the target size. *)
Definition multiplies_rows (self : t) (coords : list (np.float * np.float))
    (orig_img_size : ndarray Q) : Prop :=
  forall h w,
    shape orig_img_size = [2%nat] -> data orig_img_size = [h; w] ->
    unnormalize self coords orig_img_size
    = Ok (map (fun yx =>
                 (np.multiply (np.divide h (inject_Z (fst (new_size self))))
                              (fst yx),
                  np.multiply (np.divide w (inject_Z (snd (new_size self))))
                              (snd yx)))
              coords).

End Normalizer.

(** ** [RunningAverage] *)

Module RunningAverage.

Record t : Type := mk { list_ : list Q; size : Z }.

Definition init (size : Z) : t := {| list_ := []; size := size |}.

(** [l.pop(0)] *)
Definition pop0 (l : list Q) : result (list Q) :=
  match l with
  | [] => Raise IndexError
  | _ :: t => Ok t
  end.

Definition put (self : t) (elem : Q) : result t :=
  l <- (if (size self <=? len (list_ self))%Z then pop0 (list_ self)
        else Ok (list_ self)) ;;
  Ok {| list_ := l ++ [elem]; size := size self |}.

Definition pop (self : t) : result t :=
  l <- pop0 (list_ self) ;;
  Ok {| list_ := l; size := size self |}.

(** [np.average(self.list)]; [None] is the [nan] of an empty list. *)
Definition avg (self : t) : option Q :=
  match list_ self with
  | [] => None
  | l => Some (fold_right Qplus 0 l / inject_Z (len l))
  end.

(** A run of [put]s, stopping at the first exception. *)
Fixpoint puts (self : t) (elems : list Q) : result t :=
  match elems with
  | [] => Ok self
  | e :: rest => self' <- put self e ;; puts self' rest
  end.

(** The last [n] elements of a list. *)
Definition lastn (n : nat) (l : list Q) : list Q :=
  skipn (length l - n) l.

(** The reading of the window contract for every capacity: a run of
    [put]s from the empty window succeeds and leaves the last [size]
    values, never more than [size] of them. *)
Definition window_holds_last (size : Z) (elems : list Q) : Prop :=
  exists w,
    puts (init size) elems = Ok w /\
    list_ w = lastn (Z.to_nat size) elems /\
    (len (list_ w) <= size)%Z.

End RunningAverage.

(** ** [AccBetaMixtureModel] *)

Module AccBetaMixtureModel.

Local Open Scope R_scope.

(** A frozen random variable as the accumulator uses it: an object with
    a density [pdf] and a [mean]. *)
Record rv : Type := mk_rv { pdf : R -> R; mean : R }.

(** A mixture is a sequence of [(rv, weight)] pairs. *)
Definition mixture : Type := list (rv * R).

Record t : Type := mk {
  n_components : Z;
  mixtures : list mixture;
  x : list R
}.

(** [np.linspace(0, 1, n_pts)] *)
Definition linspace01 (n_pts : nat) : list R :=
  match n_pts with
  | 1%nat => [0]
  | _ => map (fun i => INR i / INR (n_pts - 1)) (seq 0 n_pts)
  end.

Definition init (n_components : Z) (n_pts : nat) : t :=
  {| n_components := n_components; mixtures := [];
     x := linspace01 n_pts |}.

Definition feed (self : t) (mixture : mixture) : result t :=
  _ <- assert (len mixture =? n_components self)%Z ;;
  Ok {| n_components := n_components self;
        mixtures := mixtures self ++ [mixture];
        x := x self |}.

(** [np.clip(v, a_min, a_max)] *)
Definition clip (v a_min a_max : R) : R := Rmin (Rmax v a_min) a_max.

(** [np.clip(rv.pdf(self.x), a_min=0, a_max=50)] *)
Definition clipped_pdf (grid : list R) (r : rv) : list R :=
  map (fun xi => clip (pdf r xi) 0 50) grid.

(** Elementwise sum of two arrays over the grid. *)
Fixpoint vadd (u v : list R) : list R :=
  match u, v with
  | a :: u', b :: v' => (a + b) :: vadd u' v'
  | _, _ => []
  end.

(** [(p - m)**2], elementwise. *)
Fixpoint sq_err (p m : list R) : list R :=
  match p, m with
  | a :: p', b :: m' => ((a - b) * (a - b)) :: sq_err p' m'
  | _, _ => []
  end.

(** [for c, term in enumerate(terms): rows[c] += term] *)
Fixpoint add_rows (rows terms : list (list R)) : result (list (list R)) :=
  match terms, rows with
  | [], _ => Ok rows
  | t :: ts, r :: rs =>
      rest <- add_rows rs ts ;; Ok (vadd r t :: rest)
  | _ :: _, [] => Raise IndexError
  end.

(** [[f(c, rv) for c, (rv, w) in enumerate(mix)]] where [f] reads
    [pdf_means[c]]. *)
Fixpoint sq_err_rows (grid : list R) (mix : mixture)
    (pdf_means : list (list R)) : result (list (list R)) :=
  match mix, pdf_means with
  | [], _ => Ok []
  | (r, _) :: mix', m :: means' =>
      rest <- sq_err_rows grid mix' means' ;;
      Ok (sq_err (clipped_pdf grid r) m :: rest)
  | _ :: _, [] => Raise IndexError
  end.

Definition mean_terms (grid : list R) (n : R) (mix : mixture)
  : list (list R) :=
  map (fun rw => map (fun v => 1 / n * v) (clipped_pdf grid (fst rw))) mix.

(** The statistics [plot] draws: the mean density of every component, and
    with more than one mixture the spread curve of every component.  The
    figures themselves and the kernel density estimate are left out. *)
Record stats : Type := mk_stats {
  pdf_means : list (list R);
  pdf_stdevs : option (list (list R))
}.

Definition plot (self : t) : result stats :=
  _ <- assert (0 <? len (mixtures self))%Z ;;
  match mixtures self with
  | [] => Raise IndexError
  | first :: rest =>
      let n := INR (length (mixtures self)) in
      means <- fold_left
                 (fun acc mix =>
                    rows <- acc ;;
                    add_rows rows (mean_terms (x self) n mix))
                 rest (Ok (mean_terms (x self) n first)) ;;
      if (1 <? len (mixtures self))%Z then
        sq0 <- sq_err_rows (x self) first means ;;
        sq <- fold_left
                (fun acc mix =>
                   rows <- acc ;;
                   terms <- sq_err_rows (x self) mix means ;;
                   add_rows rows terms)
                rest (Ok sq0) ;;
        Ok {| pdf_means := means;
              pdf_stdevs :=
                Some (map (map (fun s => sqrt s / (n - 1))) sq) |}
      else
        Ok {| pdf_means := means; pdf_stdevs := None |}
  end.

(** The sample standard deviation with divisor [N - 1]. *)
Definition sample_stdev (vals : list R) : R :=
  let n := INR (length vals) in
  let m := fold_right Rplus 0 vals / n in
  sqrt (fold_right Rplus 0 (map (fun v => (v - m) * (v - m)) vals)
        / (n - 1)).

(** The clamped densities of component [c] at grid index [i], one per
    fed mixture. *)
Definition densities_at (self : t) (c i : nat) : list R :=
  map (fun mix =>
         nth i (clipped_pdf (x self)
                  (fst (nth c mix ({| pdf := fun _ => 0; mean := 0 |}, 0))))
             0)
      (mixtures self).

(** Three beta densities with a closed form on [[0, 1]]. *)
Definition beta_1_1 : rv := {| pdf := fun _ => 1; mean := 1 / 2 |}.
Definition beta_2_1 : rv := {| pdf := fun v => 2 * v; mean := 2 / 3 |}.
Definition beta_1_2 : rv := {| pdf := fun v => 2 * (1 - v); mean := 1 / 3 |}.

Definition mix_a : mixture := [(beta_1_1, 1 / 2); (beta_1_1, 1 / 2)].
Definition mix_b : mixture := [(beta_2_1, 1 / 2); (beta_1_2, 1 / 2)].
Definition mix_c : mixture := [(beta_1_2, 1 / 2); (beta_2_1, 1 / 2)].

Definition three_fed : t :=
  {| n_components := 2; mixtures := [mix_a; mix_b; mix_c];
     x := linspace01 2 |}.

End AccBetaMixtureModel.

(** ** Sample inputs *)

(** A fitter that never converges, for the policies that do not fit. *)
Definition no_fit : list Q -> list Z -> result bmm_fit :=
  fun _ _ => Raise FitError.

Definition half_pixel : ndarray Q := {| shape := [1; 1]%nat; data := [1 # 2] |}.

(** A fit whose second component has the smaller mean. *)
Definition swapped_fit : list Q -> list Z -> result bmm_fit :=
  fun _ _ => Ok (((3, 1), (1, 3)), (1 # 2, 1 # 2), 7%Z).

Definition three_pixels : ndarray Q :=
  {| shape := [1; 3]%nat; data := [1 # 10; 3 # 10; 9 # 10] |}.

(** A fit with two equal components of mean 1/2. *)
Definition even_fit : list Q -> list Z -> result bmm_fit :=
  fun _ _ => Ok (((1, 1), (1, 1)), (1 # 2, 1 # 2), 3%Z).

(** One pixel with two channels: an array of shape [(1, 1, 2)]. *)
Definition two_channel_pixel : ndarray Q :=
  {| shape := [1; 1; 2]%nat; data := [1 # 2; 1 # 2] |}.

Definition zero_two : ndarray Q := {| shape := [1; 2]%nat; data := [0; 2] |}.

Definition zero_one : ndarray Q := {| shape := [1; 2]%nat; data := [0; 1] |}.

Definition row_of_ones : ndarray Z :=
  {| shape := [1; 3]%nat; data := [1; 1; 1]%Z |}.

Definition corner_mask : ndarray Z :=
  {| shape := [2; 2]%nat; data := [1; 1; 0; 1]%Z |}.

Definition zero_mask : ndarray Z :=
  {| shape := [2; 2]%nat; data := [0; 0; 0; 0]%Z |}.

Definition no_shuffle : list (Z * Z) -> list (Z * Z) := fun c => c.

Definition size_200_100 : ndarray Q := {| shape := [2]%nat; data := [200; 100] |}.


(** ** Sequences of calls on a running window *)

Inductive window_op : Type :=
| Put (elem : Q)
| Pop.

Definition window_step (self : RunningAverage.t) (op : window_op)
  : result RunningAverage.t :=
  match op with
  | Put e => RunningAverage.put self e
  | Pop => RunningAverage.pop self
  end.

(** A run of [put] and [pop] calls, stopping at the first exception. *)
Fixpoint window_run (self : RunningAverage.t) (ops : list window_op)
  : result RunningAverage.t :=
  match ops with
  | [] => Ok self
  | op :: rest => self' <- window_step self op ;; window_run self' rest
  end.

(** ** Helpers for statements *)

(** A sequence of rows of finite coordinates. *)
Definition finite_rows (l : list (Q * Q)) : list (np.float * np.float) :=
  map (fun yx => (np.Finite (fst yx), np.Finite (snd yx))) l.

(** A float that is finite and has the value [q]. *)
Definition float_eq (a : np.float) (q : Q) : Prop :=
  match a with
  | np.Finite x => x == q
  | np.NotFinite => False
  end.

(** A coordinate row whose components are finite and have the values of
    the row [q]. *)
Definition row_eq (p : np.float * np.float) (q : Q * Q) : Prop :=
  float_eq (fst p) (fst q) /\ float_eq (snd p) (snd q).

(** The 1-D size vector [[h, w]]. *)
Definition size_vector (h w : Q) : ndarray Q :=
  {| shape := [2%nat]; data := [h; w] |}.

(** The 8-bit level [array_scaled] gives a pixel of value [v]. *)
Definition level8 (minn maxx v : Q) : Z :=
  np.uint8 (np.round ((v - minn) / (maxx - minn) * 255)).

(** ** Sequences of calls on an accumulator, and what its curves hold *)

(** A run of [feed]s, stopping at the first exception. *)
Fixpoint feeds (self : AccBetaMixtureModel.t)
    (ms : list AccBetaMixtureModel.mixture) : result AccBetaMixtureModel.t :=
  match ms with
  | [] => Ok self
  | m :: rest => self' <- AccBetaMixtureModel.feed self m ;; feeds self' rest
  end.

(** [k] curves of [g] points each. *)
Definition shaped (k g : nat) (rows : list (list R)) : Prop :=
  length rows = k /\ Forall (fun r => length r = g) rows.

(** The value at row [c], grid index [i] of a list of curves. *)
Definition at_ (rows : list (list R)) (c i : nat) : R :=
  nth i (nth c rows []) 0%R.

(** Sum of a list of reals. *)
Definition Rsum (l : list R) : R := fold_right Rplus 0%R l.

(** The clamped density of component [c] of one mixture at grid index
    [i]. *)
Definition density_at (grid : list R) (mix : AccBetaMixtureModel.mixture)
    (c i : nat) : R :=
  nth i (AccBetaMixtureModel.clipped_pdf grid
           (fst (nth c mix
                   ({| AccBetaMixtureModel.pdf := fun _ => 0%R;
                       AccBetaMixtureModel.mean := 0%R |}, 0%R))))
      0%R.


(** ** [overlay_heatmap] *)

(** Element [[i, j, k]] of a 3-D array. *)
Definition get3 (a : ndarray Q) (i j k : nat) : Q :=
  match shape a with
  | [_; d1; d2] => nth ((i * d1 + j) * d2 + k) (data a) 0
  | _ => 0
  end.

(** The 3-D array of shape [(d0, d1, d2)] whose element [[i, j, k]] is
    [f i j k]. *)
Definition tabulate3 (d0 d1 d2 : nat) (f : nat -> nat -> nat -> Q)
  : ndarray Q :=
  {| shape := [d0; d1; d2];
     data :=
       flat_map
         (fun i =>
            flat_map (fun j => map (fun k => f i j k) (seq 0 d2)) (seq 0 d1))
         (seq 0 d0) |}.

(** [a.transpose(1, 2, 0)]: the result's [[j, k, i]] is [a[i, j, k]]. *)
Definition transpose_1_2_0 (a : ndarray Q) : ndarray Q :=
  match shape a with
  | [d0; d1; d2] => tabulate3 d1 d2 d0 (fun j k i => get3 a i j k)
  | _ => a
  end.

(** [a.transpose(2, 0, 1)]: the result's [[k, i, j]] is [a[i, j, k]]. *)
Definition transpose_2_0_1 (a : ndarray Q) : ndarray Q :=
  match shape a with
  | [d0; d1; d2] => tabulate3 d2 d0 d1 (fun k i j => get3 a i j k)
  | _ => a
  end.

(** Broadcasting of one axis: equal lengths, or one of them 1. *)
Definition broadcast_dim (d d' : nat) : result nat :=
  if (d =? d')%nat then Ok d
  else if (d =? 1)%nat then Ok d'
  else if (d' =? 1)%nat then Ok d
  else Raise ValueError.

Definition broadcast_index (d i : nat) : nat :=
  if (d =? 1)%nat then 0%nat else i.

(** An elementwise binary operation on two 3-D arrays, with numpy's
    broadcasting. *)
Definition broadcast3 (f : Q -> Q -> Q) (a b : ndarray Q)
  : result (ndarray Q) :=
  match shape a, shape b with
  | [a0; a1; a2], [b0; b1; b2] =>
      d0 <- broadcast_dim a0 b0 ;;
      d1 <- broadcast_dim a1 b1 ;;
      d2 <- broadcast_dim a2 b2 ;;
      Ok (tabulate3 d0 d1 d2
            (fun i j k =>
               f (get3 a (broadcast_index a0 i) (broadcast_index a1 j)
                         (broadcast_index a2 k))
                 (get3 b (broadcast_index b0 i) (broadcast_index b1 j)
                         (broadcast_index b2 k))))
  | _, _ => Raise ValueError
  end.

(** Red, green and blue of an RGBA colour. *)
Definition rgb (c : Q * Q * Q * Q) : list Q :=
  let '(r, g, b, _) := c in [r; g; b].

Section Overlay.

(** The colormap: the RGBA colour, with components in [[0, 1]], that it
    gives to a scalar. *)
Variable colormap : Q -> Q * Q * Q * Q.

(** [colormap(map)[:, :, :3]] for a 2-D [map]. *)
Definition colormap_rgb (map_ : ndarray Q) : ndarray Q :=
  {| shape := shape map_ ++ [3%nat];
     data := flat_map (fun v => rgb (colormap v)) (data map_) |}.

Definition overlay_heatmap (img map_ : ndarray Q) : result (ndarray Q) :=
  _ <- assert (ndim img =? 3)%nat ;;
  _ <- assert (ndim map_ =? 2)%nat ;;
  _ <- assert (hd 0%nat (shape img) =? 3)%nat ;;
  let img := transpose_1_2_0 img in
  let heatmap := colormap_rgb map_ in
  let heatmap := array_map (fun v => v * 255) heatmap in
  img_w_heatmap <- broadcast3 (fun p h => (p + h) / 2) img heatmap ;;
  let img_w_heatmap := transpose_2_0_1 img_w_heatmap in
  Ok img_w_heatmap.

End Overlay.

(** A grey colormap, for examples: values outside [[0, 1]] are clipped. *)
Definition grey_colormap (v : Q) : Q * Q * Q * Q :=
  let c := Qmax 0 (Qmin v 1) in (c, c, c, 1).

Definition tiny_image : ndarray Q :=
  {| shape := [3; 1; 2]%nat; data := [10; 20; 30; 40; 50; 60] |}.

Definition tiny_map : ndarray Q :=
  {| shape := [1; 2]%nat; data := [0; 1] |}.

(** Two axis lengths that do not broadcast. *)
Definition incompatible (d d' : nat) : Prop :=
  d <> d' /\ d <> 1%nat /\ d' <> 1%nat.

(** * Properties *)

(** ** Evaluation on small inputs *)

Example otsu_two_levels : cv2.otsu [0; 255]%Z = 0%Z.
Proof. vm_compute. reflexivity. Qed.

Example otsu_three_groups :
  cv2.otsu [10; 10; 12; 200; 201; 199; 11]%Z = 12%Z.
Proof. vm_compute. reflexivity. Qed.

(** An exact tie: on the levels [0, 0, 102, 153, 255] the splits after
    level 0 and after level 102 have the same between-class variance, and
    the exact search keeps the first. *)
Example otsu_tie : cv2.otsu [0; 0; 102; 153; 255]%Z = 0%Z.
Proof. vm_compute. reflexivity. Qed.

Example inRange_two_channels :
  cv2.inRange two_channel_pixel (1 # 2) 1
  = Ok {| shape := [1; 1]%nat; data := [0%Z] |}.
Proof. reflexivity. Qed.

Example inRange_empty_matrix :
  cv2.inRange {| shape := [0; 5]%nat; data := [] |} 0 1 = Raise CvError.
Proof. reflexivity. Qed.

(** ** Fixed and mixture thresholds *)


Lemma inRange1_in lowerb upperb v :
  cv2.inRange1 lowerb upperb v = 255%Z <-> lowerb <= v /\ v <= upperb.
Proof.
  unfold cv2.inRange1.
  destruct (Qle_bool lowerb v) eqn:Hl; destruct (Qle_bool v upperb) eqn:Hu;
    cbn [andb]; rewrite <- !Qle_bool_iff, ?Hl, ?Hu;
    split; try discriminate; intuition congruence.
Qed.


Lemma Qeq_bool_false x y : ~ x == y -> Qeq_bool x y = false.
Proof.
  intros H. destruct (Qeq_bool x y) eqn:E; [ | reflexivity ].
  apply Qeq_bool_iff in E. contradiction.
Qed.

(** On a non-empty matrix of two axes the mask is computed element by
    element and has the shape of the matrix. *)
Lemma inRange_matrix (array : ndarray Q) (lowerb upperb : Q) :
  ndim array = 2%nat -> data array <> [] ->
  cv2.inRange array lowerb upperb
  = Ok {| shape := shape array;
          data := map (cv2.inRange1 lowerb upperb) (data array) |}.
Proof.
  intros Hdim Hne. unfold cv2.inRange, ndim in *.
  destruct (data array) as [ | v l ]; [ contradiction | ].
  destruct (shape array) as [ | h [ | w [ | ? ? ] ] ]; try discriminate.
  reflexivity.
Qed.

Lemma inRange_empty (array : ndarray Q) (lowerb upperb : Q) :
  data array = [] -> cv2.inRange array lowerb upperb = Raise CvError.
Proof. intros H. unfold cv2.inRange. rewrite H. reflexivity. Qed.


(** The fixed policy on a non-empty 2-D array. *)
Lemma threshold_fixed_eq
    (otsu_level : list Z -> Z)
    (estimate : list Q -> list Z -> result bmm_fit)
    (array : ndarray Q) (tau : Q) :
  ndim array = 2%nat -> data array <> [] -> ~ tau == -1 -> ~ tau == -2 ->
  threshold otsu_level estimate array tau
  = Ok (Mask_tau {| shape := shape array;
                    data := map (cv2.inRange1 tau 1) (data array) |} tau).
Proof.
  intros Hdim Hne H1 H2. unfold threshold.
  rewrite (Qeq_bool_false H1), (Qeq_bool_false H2).
  rewrite (@inRange_matrix array _ _ Hdim Hne). reflexivity.
Qed.

(** C1, at the one-pixel array [[1/2]] with [tau = 0]: the pixel lies in
    [[0, 1]], and the mask element [threshold] returns for it is 255, where
    the docstring of [threshold] ("values above tau become 1") and the
    claim have 1. *)
Theorem threshold_fixed_marks_255 :
  exists mask,
    threshold cv2.otsu no_fit half_pixel 0 = Ok (Mask_tau mask 0) /\
    nth_error (data half_pixel) 0 = Some (1 # 2) /\
    (0 <= 1 # 2 /\ 1 # 2 <= 1) /\
    nth_error (data mask) 0 = Some 255%Z /\
    nth_error (data mask) 0 <> Some 1%Z.
Proof.
  eexists. split; [ reflexivity | ]. split; [ reflexivity | ].
  split; [ split; discriminate | ]. split; [ reflexivity | discriminate ].
Qed.



Example threshold_mixture_two_channels :
  threshold cv2.otsu even_fit two_channel_pixel (-2)
  = Ok (Mask_tau_mixture {| shape := [1; 1]%nat; data := [0%Z] |} (1 / (1 + 1))
          ((scipy.mk_beta 1 1, 1 # 2), (scipy.mk_beta 1 1, 1 # 2))).
Proof. reflexivity. Qed.


(** ** Otsu threshold *)

Lemma fold_left_Qmin_le (t : list Q) (x : Q) :
  fold_left Qmin t x <= x /\ Forall (fun v => fold_left Qmin t x <= v) t.
Proof.
  revert x. induction t as [ | y t IH ]; intros x; cbn.
  - split; [ apply Qle_refl | constructor ].
  - destruct (IH (Qmin x y)) as [H1 H2]. split.
    + eapply Qle_trans; [ exact H1 | apply Q.le_min_l ].
    + constructor; [ | exact H2 ].
      eapply Qle_trans; [ exact H1 | apply Q.le_min_r ].
Qed.

Lemma fold_left_Qmax_ge (t : list Q) (x : Q) :
  x <= fold_left Qmax t x /\ Forall (fun v => v <= fold_left Qmax t x) t.
Proof.
  revert x. induction t as [ | y t IH ]; intros x; cbn.
  - split; [ apply Qle_refl | constructor ].
  - destruct (IH (Qmax x y)) as [H1 H2]. split.
    + eapply Qle_trans; [ apply Q.le_max_l | exact H1 ].
    + constructor; [ | exact H2 ].
      eapply Qle_trans; [ apply Q.le_max_r | exact H1 ].
Qed.

Lemma np_min_le (l : list Q) (m v : Q) :
  np.min l = Ok m -> In v l -> m <= v.
Proof.
  destruct l as [ | x t ]; cbn; [ discriminate | ].
  intros H Hin. injection H as <-.
  destruct (fold_left_Qmin_le t x) as [H1 H2].
  destruct Hin as [<- | Hin]; [ exact H1 | ].
  rewrite Forall_forall in H2. apply H2, Hin.
Qed.

Lemma np_max_ge (l : list Q) (m v : Q) :
  np.max l = Ok m -> In v l -> v <= m.
Proof.
  destruct l as [ | x t ]; cbn; [ discriminate | ].
  intros H Hin. injection H as <-.
  destruct (fold_left_Qmax_ge t x) as [H1 H2].
  destruct Hin as [<- | Hin]; [ exact H1 | ].
  rewrite Forall_forall in H2. apply H2, Hin.
Qed.

Lemma Qlt_floor_succ (q : Q) : q < inject_Z (Qfloor q) + 1.
Proof.
  pose proof (Qlt_floor q) as H. rewrite inject_Z_plus in H. exact H.
Qed.

Lemma round_near (q : Q) :
  q - (1 # 2) <= inject_Z (np.round q) /\ inject_Z (np.round q) <= q + (1 # 2).
Proof.
  unfold np.round.
  pose proof (Qfloor_le q) as Hlo. pose proof (Qlt_floor_succ q) as Hhi.
  destruct (Qcompare_spec (q - inject_Z (Qfloor q)) (1 # 2)) as [E | E | E].
  - destruct (Z.even (Qfloor q));
      rewrite ?inject_Z_plus; change (inject_Z 1) with 1; lra.
  - lra.
  - rewrite inject_Z_plus. change (inject_Z 1) with 1. lra.
Qed.

Lemma round_byte (q : Q) :
  0 <= q -> q <= 255 -> np.uint8 (np.round q) = np.round q.
Proof.
  intros H0 H255. destruct (round_near q) as [Hlo Hhi].
  unfold np.uint8. apply Z.mod_small. split.
  - assert (H : (-1 < np.round q)%Z).
    { rewrite Zlt_Qlt. change (inject_Z (-1)) with (-1). lra. }
    lia.
  - rewrite Zlt_Qlt. change (inject_Z 256) with 256. lra.
Qed.

(** The rescaled value of a pixel between the extremes lies in [[0, 255]]. *)
Lemma rescaled_range (minn maxx v : Q) :
  minn < maxx -> minn <= v -> v <= maxx ->
  0 <= (v - minn) / (maxx - minn) * 255 /\
  (v - minn) / (maxx - minn) * 255 <= 255.
Proof.
  intros Hlt Hlo Hhi.
  assert (Hd : 0 < maxx - minn) by lra.
  assert (H0 : 0 <= (v - minn) / (maxx - minn)).
  { apply Qle_shift_div_l; [ exact Hd | lra ]. }
  assert (H1 : (v - minn) / (maxx - minn) <= 1).
  { apply Qle_shift_div_r; [ exact Hd | lra ]. }
  split; lra.
Qed.

(** A pixel whose 8-bit level is strictly above the Otsu level [t] lies
    strictly above the threshold mapped back to the array's units. *)
Lemma above_level_above_tau (minn maxx v : Q) (t : Z) :
  minn < maxx -> minn <= v -> v <= maxx ->
  (t < np.uint8 (np.round ((v - minn) / (maxx - minn) * 255)))%Z ->
  minn + inject_Z t / 255 * (maxx - minn) < v.
Proof.
  intros Hlt Hlo Hhi Ht.
  destruct (rescaled_range Hlt Hlo Hhi) as [H0 H255].
  rewrite (round_byte H0 H255) in Ht.
  destruct (round_near ((v - minn) / (maxx - minn) * 255)) as [_ Hr].
  assert (Ht1 : inject_Z t + 1 <= inject_Z (np.round ((v - minn) / (maxx - minn) * 255))).
  { change 1 with (inject_Z 1). rewrite <- inject_Z_plus, <- Zle_Qle. lia. }
  assert (Hd : 0 < maxx - minn) by lra.
  set (f := (v - minn) / (maxx - minn)) in *.
  assert (Hf : f * (maxx - minn) == v - minn).
  { unfold f. rewrite Qmult_comm. apply Qmult_div_r. lra. }
  assert (Htf : inject_Z t / 255 < f).
  { unfold Qdiv. change (/ 255) with (1 # 255). lra. }
  apply (Qmult_lt_compat_r _ _ _ Hd) in Htf.
  lra.
Qed.

Lemma binary1_above t maxval v :
  maxval <> 0%Z ->
  (cv2.binary1 t maxval v = maxval <-> (t < v)%Z) /\
  (cv2.binary1 t maxval v = 0%Z <-> (v <= t)%Z).
Proof.
  intros Hmax. unfold cv2.binary1.
  destruct (Z.ltb_spec t v); split; split; intros; try lia; congruence.
Qed.

Lemma np_min_max_nonempty (l : list Q) :
  l <> [] -> exists minn maxx, np.min l = Ok minn /\ np.max l = Ok maxx.
Proof.
  destruct l as [ | v t ]; [ contradiction | ].
  intros _. eexists. eexists. split; reflexivity.
Qed.

Lemma squeeze_ndim {A} (array : ndarray A) :
  (ndim (np.squeeze array) <= ndim array)%nat.
Proof. unfold ndim, np.squeeze. cbn [shape]. apply filter_length_le. Qed.

(** The Otsu policy on a 2-D array with a minimum and a maximum. *)
Lemma threshold_otsu_eq
    (otsu_level : list Z -> Z)
    (estimate : list Q -> list Z -> result bmm_fit)
    (array : ndarray Q) (minn maxx : Q) :
  ndim array = 2%nat ->
  np.min (data array) = Ok minn -> np.max (data array) = Ok maxx ->
  threshold otsu_level estimate array (-1)
  = Ok (Mask_tau
          {| shape := cv2.Mat_shape (shape (np.squeeze array));
             data := map (cv2.binary1
                            (otsu_level (map (level8 minn maxx) (data array)))
                            255)
                         (map (level8 minn maxx) (data array)) |}
          (minn + inject_Z (otsu_level (map (level8 minn maxx) (data array)))
                  / 255 * (maxx - minn))).
Proof.
  intros Hdim Hmin Hmax. unfold threshold.
  replace (Qeq_bool (-1) (-1)) with true by reflexivity.
  rewrite Hmin, Hmax. cbn [bind].
  unfold cv2.threshold_binary_otsu, array_scaled.
  pose proof (squeeze_ndim array) as Hsq. rewrite Hdim in Hsq.
  unfold ndim in *. cbn [np.squeeze array_map data shape] in *.
  destruct (data array) as [ | v l ]; [ discriminate Hmin | ].
  cbn [map].
  destruct (Nat.leb_spec
              (length (filter (fun n => negb (n =? 1)%nat) (shape array))) 2)
    as [_ | Hgt]; [ | lia ].
  reflexivity.
Qed.

(** C4, as the code has it: with [tau = -1], a non-empty 2-D array whose
    range [max - min] is a finite double is rescaled from [[min, max]]
    onto the 8-bit levels, the level [t] reported by the Otsu search on the
    rescaled image is mapped back to [tau = min + t/255 * (max - min)], and
    the mask returned is the binarisation of the rescaled image at [t]: an
    element is 255 exactly where the pixel's level is strictly above [t]
    and 0 elsewhere.  When [min < max] every marked pixel lies strictly
    above the returned [tau]; no upper bound applies. *)
Theorem threshold_otsu_mask
    (otsu_level : list Z -> Z)
    (estimate : list Q -> list Z -> result bmm_fit) (array : ndarray Q) :
  ndim array = 2%nat -> data array <> [] ->
  exists minn maxx,
    np.min (data array) = Ok minn /\ np.max (data array) = Ok maxx /\
    (maxx - minn <= np.float64_max ->
     exists mask,
       let level v := np.uint8 (np.round ((v - minn) / (maxx - minn) * 255)) in
       let t := otsu_level (map level (data array)) in
       let tau := minn + inject_Z t / 255 * (maxx - minn) in
       threshold otsu_level estimate array (-1) = Ok (Mask_tau mask tau) /\
       length (data mask) = length (data array) /\
       forall i v, nth_error (data array) i = Some v ->
         exists m, nth_error (data mask) i = Some m /\
                   (m = 255%Z <-> (t < level v)%Z) /\
                   (m = 0%Z <-> (level v <= t)%Z) /\
                   (minn < maxx -> m = 255%Z -> tau < v)).
Proof.
  intros Hdim Hne.
  destruct (np_min_max_nonempty Hne) as (minn & maxx & Hmin & Hmax).
  exists minn, maxx. split; [ exact Hmin | ]. split; [ exact Hmax | ].
  intros _. eexists. cbv zeta.
  split; [ exact (@threshold_otsu_eq otsu_level estimate array minn maxx
                    Hdim Hmin Hmax) | ].
  cbn [data]. split; [ rewrite !length_map; reflexivity | ].
  intros i v Hv.
  rewrite !nth_error_map, Hv. cbn [option_map].
  eexists. split; [ reflexivity | ].
  fold (level8 minn maxx v).
  set (t := otsu_level (map (level8 minn maxx) (data array))).
  destruct (@binary1_above t 255%Z (level8 minn maxx v)) as [H255 H0];
    [ discriminate | ].
  split; [ exact H255 | ]. split; [ exact H0 | ].
  intros Hlt Hm. apply H255 in Hm.
  apply nth_error_In in Hv.
  apply above_level_above_tau; try assumption.
  - eapply np_min_le; eassumption.
  - eapply np_max_ge; eassumption.
Qed.

Lemma float64_max_large (q : Q) : q <= 2 -> q <= np.float64_max.
Proof.
  intros H. eapply Qle_trans; [ exact H | ].
  apply Qle_bool_imp_le. vm_compute. reflexivity.
Qed.

Lemma threshold_otsu_mask_witness :
  exists mask,
    let level v := np.uint8 (np.round ((v - 0) / (2 - 0) * 255)) in
    let t := cv2.otsu (map level (data zero_two)) in
    let tau := 0 + inject_Z t / 255 * (2 - 0) in
    threshold cv2.otsu no_fit zero_two (-1) = Ok (Mask_tau mask tau) /\
    length (data mask) = length (data zero_two) /\
    forall i v, nth_error (data zero_two) i = Some v ->
      exists m, nth_error (data mask) i = Some m /\
                (m = 255%Z <-> (t < level v)%Z) /\
                (m = 0%Z <-> (level v <= t)%Z) /\
                (0 < 2 -> m = 255%Z -> tau < v).
Proof.
  destruct (threshold_otsu_mask cv2.otsu no_fit zero_two eq_refl
              ltac:(discriminate))
    as (minn & maxx & Hmin & Hmax & H).
  injection Hmin as <-. injection Hmax as <-.
  apply H. apply float64_max_large. discriminate.
Defined.

Example threshold_otsu_zero_two :
  exists tau,
    threshold cv2.otsu no_fit zero_two (-1)
    = Ok (Mask_tau {| shape := [2; 1]%nat; data := [0; 255]%Z |} tau) /\
    tau == 0.
Proof. eexists. split; [ vm_compute; reflexivity | reflexivity ]. Qed.

Example threshold_otsu_zero_one :
  exists tau,
    threshold cv2.otsu no_fit zero_one (-1)
    = Ok (Mask_tau {| shape := [2; 1]%nat; data := [0; 255]%Z |} tau) /\
    tau == 0 /\
    cv2.inRange zero_one tau 1
    = Ok {| shape := [1; 2]%nat; data := [255; 255]%Z |}.
Proof.
  eexists. split; [ vm_compute; reflexivity | ]. split; reflexivity.
Qed.

(** On [[0, 2]] the two masks differ whichever level below 255 the Otsu
    search reports: the pixel 2 has the level 255 and is marked, while no
    threshold puts 2 inside [[tau, 1]]. *)
Lemma otsu_mask_differs_on_zero_two
    (otsu_level : list Z -> Z)
    (estimate : list Q -> list Z -> result bmm_fit) :
  (otsu_level [0; 255] < 255)%Z ->
  ~ otsu_mask_is_fixed_mask otsu_level estimate zero_two.
Proof.
  intros Ht (mask & tau & fixed & Hret & Hfix & Hsame).
  rewrite (@threshold_otsu_eq otsu_level estimate zero_two 0 2
             eq_refl eq_refl eq_refl) in Hret.
  injection Hret as Hmask _. subst mask.
  rewrite (@inRange_matrix zero_two tau 1 eq_refl ltac:(discriminate)) in Hfix.
  injection Hfix as <-.
  cbn [data map zero_two] in Hsame.
  assert (E0 : level8 0 2 0 = 0%Z) by reflexivity.
  assert (E2 : level8 0 2 2 = 255%Z) by reflexivity.
  rewrite E0, E2 in Hsame.
  injection Hsame as _ H2.
  unfold cv2.binary1 in H2.
  destruct (Z.ltb_spec (otsu_level [0; 255]%Z) 255); [ | lia ].
  symmetry in H2. apply inRange1_in in H2. destruct H2 as [_ H2].
  lra.
Qed.

(** C4 as worded fails: on [[0, 2]] the Otsu policy returns [tau = 0] and
    the mask [0, 255], while fixed-policy masking at 0 gives [255, 0]. *)
Lemma otsu_mask_is_not_fixed_mask :
  ~ otsu_mask_is_fixed_mask cv2.otsu no_fit zero_two.
Proof.
  apply otsu_mask_differs_on_zero_two. vm_compute. reflexivity.
Qed.

(** ** Clustering *)

Example where_positive_corner :
  where_positive corner_mask = [(0, 0); (0, 1); (1, 1)]%Z.
Proof. reflexivity. Qed.

Lemma positive_from_none (k : nat) (l : list Z) :
  Forall (fun v => (v <= 0)%Z) l -> positive_from k l = [].
Proof.
  intros H. revert k. induction H as [ | v l Hv _ IH ]; intros k; cbn.
  - reflexivity.
  - destruct (Z.ltb_spec 0 v); [ lia | apply IH ].
Qed.

Lemma where_positive_none (array : ndarray Z) :
  Forall (fun v => (v <= 0)%Z) (data array) -> where_positive array = [].
Proof.
  intros H. unfold where_positive.
  destruct (shape array) as [ | h [ | w [ | ? ? ] ] ]; try reflexivity.
  rewrite (positive_from_none 0 H). reflexivity.
Qed.

(** C7: a 2-D mask all of whose elements are zero yields the empty centroid
    set, whatever [n_clusters] and [max_mask_pts]. *)
Theorem cluster_empty_mask
    (shuffle : list (Z * Z) -> list (Z * Z))
    (em_means : Z -> list (Z * Z) -> result (list (Q * Q)))
    (array : ndarray Z) (n_clusters : Z) (max_mask_pts : option Z) :
  ndim array = 2%nat ->
  Forall (fun v => v = 0%Z) (data array) ->
  cluster shuffle em_means array n_clusters max_mask_pts = Ok [].
Proof.
  intros Hdim Hzero. unfold cluster. rewrite Hdim. cbn [Nat.eqb assert bind].
  unfold fit_arguments. rewrite where_positive_none.
  - reflexivity.
  - eapply Forall_impl; [ | exact Hzero ]. cbn. intros v ->. lia.
Qed.

Lemma cluster_empty_mask_witness :
  cluster no_shuffle single_component_means zero_mask 3 (Some 10%Z) = Ok [].
Proof.
  apply (cluster_empty_mask no_shuffle single_component_means zero_mask).
  - reflexivity.
  - repeat constructor.
Defined.

(** C3, at a mask with three foreground pixels, [n_clusters = 3] and
    [max_mask_pts = 2]: whichever way the rows are shuffled, the sample
    matrix keeps two rows while three components are requested, and the fit
    is refused. *)
Theorem cluster_components_exceed_subsample
    (shuffle : list (Z * Z) -> list (Z * Z))
    (em_means : Z -> list (Z * Z) -> result (list (Q * Q))) :
  (forall c, Permutation c (shuffle c)) ->
  exists c,
    fit_arguments shuffle row_of_ones 3 (Some 2%Z) = Some (3%Z, c) /\
    length c = 2%nat /\
    cluster shuffle em_means row_of_ones 3 (Some 2%Z) = Raise ValueError.
Proof.
  intros Hperm.
  exists (firstn 2 (shuffle [(0, 0); (0, 1); (0, 2)]%Z)).
  assert (Hc : length (firstn 2 (shuffle [(0, 0); (0, 1); (0, 2)]%Z)) = 2%nat).
  { rewrite length_firstn, <- (Permutation_length (Hperm _)). reflexivity. }
  assert (Hargs : fit_arguments shuffle row_of_ones 3 (Some 2%Z)
                  = Some (3%Z, firstn 2 (shuffle [(0, 0); (0, 1); (0, 2)]%Z)))
    by reflexivity.
  split; [ exact Hargs | ]. split; [ exact Hc | ].
  unfold cluster. rewrite Hargs.
  unfold GaussianMixture_fit_means, len. rewrite Hc. reflexivity.
Qed.

Lemma cluster_components_exceed_subsample_witness :
  exists c,
    fit_arguments (@rev (Z * Z)) row_of_ones 3 (Some 2%Z) = Some (3%Z, c) /\
    length c = 2%nat /\
    cluster (@rev (Z * Z)) single_component_means row_of_ones 3 (Some 2%Z)
    = Raise ValueError.
Proof.
  apply (cluster_components_exceed_subsample (@rev (Z * Z))
           single_component_means).
  intros c. apply Permutation_rev.
Defined.

Lemma astype_int_nonneg (q : Q) :
  0 <= q -> np.astype_int q = Qfloor q.
Proof.
  destruct q as [n d]. unfold Qle, np.astype_int, Qfloor. cbn.
  intros H. apply Z.quot_div_nonneg; lia.
Qed.

Lemma astype_int_opp (q : Q) : np.astype_int (- q) = (- np.astype_int q)%Z.
Proof.
  destruct q as [n d]. unfold np.astype_int. cbn.
  apply Z.quot_opp_l. discriminate.
Qed.

(** The integer cast drops the fractional part: the result lies between
    zero and the value, less than one away from it. *)
Lemma astype_int_truncates (q : Q) :
  (0 <= q -> inject_Z (np.astype_int q) <= q /\
             q < inject_Z (np.astype_int q) + 1) /\
  (q <= 0 -> q <= inject_Z (np.astype_int q) /\
             inject_Z (np.astype_int q) - 1 < q).
Proof.
  split; intros H.
  - rewrite (astype_int_nonneg H).
    split; [ apply Qfloor_le | apply Qlt_floor_succ ].
  - assert (Hn : 0 <= - q) by lra.
    pose proof (astype_int_opp q) as Ho.
    rewrite (astype_int_nonneg Hn) in Ho.
    assert (E : np.astype_int q = (- Qfloor (- q))%Z) by lia.
    rewrite E, inject_Z_opp.
    pose proof (Qfloor_le (- q)). pose proof (Qlt_floor_succ (- q)).
    split; lra.
Qed.

Lemma fit_arguments_some
    (shuffle : list (Z * Z) -> list (Z * Z))
    (array : ndarray Z) (n_clusters : Z) (max_mask_pts : option Z) :
  where_positive array <> [] ->
  exists c,
    fit_arguments shuffle array n_clusters max_mask_pts
    = Some (Z.max (Z.min n_clusters (len (where_positive array))) 1, c).
Proof.
  intros Hne. unfold fit_arguments.
  destruct (Z.eqb_spec (len (where_positive array)) 0) as [E | E].
  - unfold len in E. destruct (where_positive array); [ contradiction | ].
    cbn in E. lia.
  - eexists. reflexivity.
Qed.

(** C6, as the code has it: on a 2-D mask with a foreground pixel, when the
    fit returns its means, [cluster] returns one [(y, x)] row per mean, each
    coordinate being the mean cast to an integer by dropping its fractional
    part (towards zero), not by rounding to the nearest integer. *)
Theorem cluster_centroids_truncated
    (shuffle : list (Z * Z) -> list (Z * Z))
    (em_means : Z -> list (Z * Z) -> result (list (Q * Q)))
    (array : ndarray Z) (n_clusters : Z) (max_mask_pts : option Z) :
  ndim array = 2%nat ->
  where_positive array <> [] ->
  exists n_components c,
    fit_arguments shuffle array n_clusters max_mask_pts
    = Some (n_components, c) /\
    forall means,
      GaussianMixture_fit_means em_means n_components c = Ok means ->
      exists centroids,
        cluster shuffle em_means array n_clusters max_mask_pts = Ok centroids /\
        length centroids = length means /\
        forall i m, nth_error means i = Some m ->
          exists y x,
            nth_error centroids i = Some (y, x) /\
            y = np.astype_int (fst m) /\ x = np.astype_int (snd m) /\
            (0 <= fst m -> inject_Z y <= fst m /\ fst m < inject_Z y + 1) /\
            (0 <= snd m -> inject_Z x <= snd m /\ snd m < inject_Z x + 1).
Proof.
  intros Hdim Hne.
  destruct (@fit_arguments_some shuffle array n_clusters max_mask_pts Hne)
    as [c Hargs].
  eexists. exists c. split; [ exact Hargs | ].
  intros means Hfit.
  unfold cluster. rewrite Hdim. cbn [Nat.eqb assert bind].
  rewrite Hargs, Hfit. cbn [bind].
  eexists. split; [ reflexivity | ]. split; [ apply length_map | ].
  intros i m Hm. rewrite nth_error_map, Hm. cbn [option_map].
  exists (np.astype_int (fst m)), (np.astype_int (snd m)).
  repeat split; try reflexivity;
    try (apply (proj1 (astype_int_truncates _)); assumption).
Qed.

Lemma cluster_centroids_truncated_witness :
  exists centroids,
    cluster no_shuffle single_component_means corner_mask 1 None
    = Ok centroids /\
    length centroids = 1%nat /\
    nth_error centroids 0 = Some (0, 0)%Z.
Proof.
  destruct (cluster_centroids_truncated no_shuffle single_component_means
              corner_mask 1 None eq_refl ltac:(discriminate))
    as (k & c & Hargs & H).
  vm_compute in Hargs. injection Hargs as <- <-.
  destruct (H [(1 # 3, 2 # 3)] eq_refl) as (cs & Hc & Hlen & Hnth).
  exists cs. split; [ exact Hc | ]. split; [ exact Hlen | ].
  destruct (Hnth 0%nat (1 # 3, 2 # 3) eq_refl) as (y & x & Hyx & -> & -> & _).
  exact Hyx.
Defined.

Example cluster_corner_mask :
  GaussianMixture_fit_means single_component_means 1
    [(0, 0); (0, 1); (1, 1)]%Z = Ok [(1 # 3, 2 # 3)] /\
  cluster no_shuffle single_component_means corner_mask 1 None
  = Ok [(0, 0)]%Z /\
  (np.round (1 # 3), np.round (2 # 3)) = (0, 1)%Z.
Proof. repeat split; reflexivity. Qed.

(** C6 as worded fails: the three foreground pixels of [corner_mask] have
    the mean (1/3, 2/3); the centroid returned is (0, 0), while rounding to
    the nearest integer gives (0, 1). *)
Lemma centroids_are_not_rounded_means :
  ~ centroids_are_rounded_means no_shuffle single_component_means
      corner_mask 1 None.
Proof.
  intros H.
  specialize (H 1%Z [(0, 0); (0, 1); (1, 1)]%Z [(1 # 3, 2 # 3)]
                eq_refl eq_refl).
  vm_compute in H. discriminate H.
Qed.

(** ** Coordinates back to the original image *)

Lemma combine_repeat_map {A B C} (f : A * B -> C) (a : A) (l : list B) :
  map f (combine (repeat a (length l)) l) = map (fun b => f (a, b)) l.
Proof. induction l as [ | b l IH ]; cbn; [ | rewrite IH ]; reflexivity. Qed.

(** C9, as the code has it: for every normalizer with target size
    [(H, W)] and every non-empty sequence of [(y, x)] rows, [unnormalize]
    on a 1-D, 2-element [orig_img_size = [h, w]] multiplies every row by
    the ratio [(h/H, w/W)], computed in floating point (a zero side gives
    a ratio that is not finite); any other shape of [orig_img_size] fails
    the assertion, whatever the rows.  For nonzero sides and a finite row
    the products are the rationals [(h/H * y, w/W * x)], and
    [Normalizer(100, 100).unnormalize([[50, 50]], [200, 100])] is
    [[100, 50]]. *)
Theorem unnormalize_ratio :
  (forall (self : Normalizer.t) (coords : list (np.float * np.float))
          (orig : ndarray Q) (H W : Z),
      Normalizer.new_size self = (H, W) ->
      (forall h w, coords <> [] -> shape orig = [2%nat] -> data orig = [h; w] ->
         Normalizer.unnormalize self coords orig
         = Ok (map (fun yx =>
                      (np.multiply (np.divide h (inject_Z H)) (fst yx),
                       np.multiply (np.divide w (inject_Z W)) (snd yx)))
                   coords)) /\
      (shape orig <> [2%nat] ->
         Normalizer.unnormalize self coords orig = Raise AssertionError)) /\
  (forall (H W : Z) (h w y x : Q), H <> 0%Z -> W <> 0%Z ->
      np.multiply (np.divide h (inject_Z H)) (np.Finite y)
      = np.Finite (h / inject_Z H * y) /\
      np.multiply (np.divide w (inject_Z W)) (np.Finite x)
      = np.Finite (w / inject_Z W * x)) /\
  (exists y x,
      Normalizer.unnormalize (Normalizer.init 100 100)
        [(np.Finite 50, np.Finite 50)] size_200_100
      = Ok [(np.Finite y, np.Finite x)] /\ y == 100 /\ x == 50).
Proof.
  split; [ | split ].
  - intros self coords orig H W Hsize. split.
    + intros h w Hne Hshape Hdata. unfold Normalizer.unnormalize, ndim.
      rewrite Hshape, Hdata, Hsize. cbn [length Nat.eqb hd assert bind fst snd].
      destruct coords as [ | r l ]; [ contradiction | ].
      rewrite combine_repeat_map. reflexivity.
    + intros Hshape. unfold Normalizer.unnormalize, ndim.
      destruct (shape orig) as [ | n [ | m s ] ]; try reflexivity.
      cbn [length Nat.eqb hd assert bind].
      destruct (Nat.eqb_spec n 2) as [-> | Hn]; [ contradiction | reflexivity ].
  - intros H W h w y x HH HW. unfold np.divide.
    rewrite !Qeq_bool_false; [ split; reflexivity | | ];
      intros E; unfold Qeq in E; cbn in E; lia.
  - eexists. eexists. split; [ reflexivity | ]. split; reflexivity.
Qed.

Lemma unnormalize_ratio_witness :
  Normalizer.unnormalize (Normalizer.init 100 100)
    [(np.Finite 50, np.Finite 50)] size_200_100
  = Ok (map (fun yx =>
               (np.multiply (np.divide 200 (inject_Z 100)) (fst yx),
                np.multiply (np.divide 100 (inject_Z 100)) (snd yx)))
            [(np.Finite 50, np.Finite 50)]).
Proof.
  apply (proj1 (proj1 unnormalize_ratio (Normalizer.init 100 100)
                  [(np.Finite 50, np.Finite 50)] size_200_100
                  100%Z 100%Z eq_refl)
           200 100 ltac:(discriminate) eq_refl eq_refl).
Defined.

Example unnormalize_zero_side :
  Normalizer.unnormalize (Normalizer.init 0 100)
    [(np.Finite 50, np.Finite 50)] size_200_100
  = Ok [(np.NotFinite, np.Finite (100 / 100 * 50))].
Proof. reflexivity. Qed.

(** C9 as worded fails on the empty sequence of rows: with a valid
    [orig_img_size] the product of the tiled factor, of shape [(0, 2)],
    with the empty sequence raises [ValueError]. *)
Lemma unnormalize_empty_raises :
  ~ Normalizer.multiplies_rows (Normalizer.init 100 100) [] size_200_100.
Proof.
  intros H. specialize (H 200 100 eq_refl eq_refl). discriminate H.
Qed.

(** ** Running window *)

Lemma puts_app (self : RunningAverage.t) (l1 l2 : list Q) :
  RunningAverage.puts self (l1 ++ l2)
  = bind (RunningAverage.puts self l1)
         (fun w => RunningAverage.puts w l2).
Proof.
  revert self. induction l1 as [ | e l1 IH ]; intros self; cbn.
  - reflexivity.
  - destruct (RunningAverage.put self e) as [w | ex]; cbn; [ apply IH | reflexivity ].
Qed.

Lemma puts_size (elems : list Q) (self w : RunningAverage.t) :
  RunningAverage.puts self elems = Ok w ->
  RunningAverage.size w = RunningAverage.size self.
Proof.
  revert self. induction elems as [ | e l IH ]; intros self; cbn.
  - intros H. injection H as <-. reflexivity.
  - unfold RunningAverage.put at 1.
    destruct (if (RunningAverage.size self <=? len (RunningAverage.list_ self))%Z
              then RunningAverage.pop0 (RunningAverage.list_ self)
              else Ok (RunningAverage.list_ self)) as [l' | ex]; cbn.
    + intros H. apply IH in H. exact H.
    + discriminate.
Qed.

Lemma lastn_length (n : nat) (l : list Q) :
  length (RunningAverage.lastn n l) = Nat.min n (length l).
Proof. unfold RunningAverage.lastn. rewrite length_skipn. lia. Qed.

Lemma lastn_short (n : nat) (l : list Q) :
  (length l <= n)%nat -> RunningAverage.lastn n l = l.
Proof.
  intros H. unfold RunningAverage.lastn.
  replace (length l - n)%nat with 0%nat by lia. reflexivity.
Qed.

Lemma lastn_snoc_full (n : nat) (l : list Q) (e : Q) :
  (1 <= n)%nat -> (n <= length l)%nat ->
  RunningAverage.lastn n (l ++ [e])
  = skipn 1 (RunningAverage.lastn n l) ++ [e].
Proof.
  intros Hn Hl. unfold RunningAverage.lastn.
  rewrite length_app, skipn_skipn. cbn [length].
  replace (length l + 1 - n)%nat with (1 + (length l - n))%nat by lia.
  rewrite skipn_app.
  replace (1 + (length l - n) - length l)%nat with 0%nat by lia.
  reflexivity.
Qed.

Lemma running_puts_last (size : Z) (elems : list Q) :
  (1 <= size)%Z -> RunningAverage.window_holds_last size elems.
Proof.
  intros Hsize. unfold RunningAverage.window_holds_last.
  induction elems as [ | e l IH ] using rev_ind.
  - exists (RunningAverage.init size). cbn. repeat split; try reflexivity; lia.
  - destruct IH as (w & Hw & Hlist & Hlen).
    pose proof (puts_size _ _ Hw) as Hsz. cbn in Hsz.
    rewrite puts_app, Hw. cbn [bind RunningAverage.puts].
    unfold RunningAverage.put. rewrite Hsz.
    pose proof (lastn_length (Z.to_nat size) l) as Hll.
    destruct (Z.leb_spec size (len (RunningAverage.list_ w))) as [Hfull | Hroom].
    + assert (Hn : (Z.to_nat size <= length l)%nat).
      { unfold len in Hfull. rewrite Hlist, Hll in Hfull. lia. }
      rewrite Hlist.
      destruct (RunningAverage.lastn (Z.to_nat size) l) as [ | y ys ] eqn:E.
      * cbn in Hll. lia.
      * cbn [RunningAverage.pop0 bind]. eexists. split; [ reflexivity | ].
        cbn [RunningAverage.list_]. split.
        -- rewrite lastn_snoc_full, E by lia. reflexivity.
        -- unfold len. rewrite length_app. cbn [length] in *. lia.
    + assert (Hn : (length l < Z.to_nat size)%nat).
      { unfold len in Hroom. rewrite Hlist, Hll in Hroom. lia. }
      cbn [bind]. eexists. split; [ reflexivity | ].
      cbn [RunningAverage.list_]. rewrite Hlist. split.
      * rewrite !lastn_short; [ reflexivity | | lia ].
        rewrite length_app. cbn. lia.
      * unfold len. rewrite length_app, lastn_short by lia. cbn. lia.
Qed.

(** C8, as the code has it: for a capacity of at least one, every run of
    [put]s from the empty window succeeds and leaves exactly the last
    [size] inserted values in insertion order, never more than [size] of
    them; with [size = 3], after [put(1), put(2), put(3), put(4)] the
    window holds [2, 3, 4] and its average is 3. *)
Theorem running_window_fifo :
  (forall (size : Z) (elems : list Q),
      (1 <= size)%Z -> RunningAverage.window_holds_last size elems) /\
  (exists w a,
      RunningAverage.puts (RunningAverage.init 3) [1; 2; 3; 4] = Ok w /\
      RunningAverage.list_ w = [2; 3; 4] /\
      RunningAverage.avg w = Some a /\ a == 3).
Proof.
  split.
  - apply running_puts_last.
  - eexists. eexists. split; [ reflexivity | ].
    split; [ reflexivity | ]. split; reflexivity.
Qed.

Lemma running_window_fifo_witness :
  RunningAverage.window_holds_last 3 [1; 2; 3; 4].
Proof.
  apply (proj1 running_window_fifo 3%Z [1; 2; 3; 4]).
  discriminate.
Defined.

Example put_zero_capacity :
  RunningAverage.put (RunningAverage.init 0) 1 = Raise IndexError.
Proof. reflexivity. Qed.

(** C8 as worded fails for the capacity zero: the first [put] pops from the
    empty list and raises [IndexError]. *)
Lemma zero_window_put_raises : ~ RunningAverage.window_holds_last 0 [1].
Proof.
  intros (w & Hw & _). discriminate Hw.
Qed.

(** ** Accumulated mixtures *)

(** C10: [feed] raises exactly when the mixture's length differs from
    [n_components]; otherwise the new sequence of mixtures is the old one
    followed by the fed mixture, and nothing else changes. *)
Theorem feed_appends_or_raises
    (self : AccBetaMixtureModel.t) (m : AccBetaMixtureModel.mixture) :
  (raises (AccBetaMixtureModel.feed self m)
   <-> len m <> AccBetaMixtureModel.n_components self) /\
  (len m = AccBetaMixtureModel.n_components self ->
   AccBetaMixtureModel.feed self m
   = Ok {| AccBetaMixtureModel.n_components :=
             AccBetaMixtureModel.n_components self;
           AccBetaMixtureModel.mixtures :=
             AccBetaMixtureModel.mixtures self ++ [m];
           AccBetaMixtureModel.x := AccBetaMixtureModel.x self |}) /\
  (forall self',
      AccBetaMixtureModel.feed self m = Ok self' ->
      length (AccBetaMixtureModel.mixtures self')
      = S (length (AccBetaMixtureModel.mixtures self)) /\
      firstn (length (AccBetaMixtureModel.mixtures self))
             (AccBetaMixtureModel.mixtures self')
      = AccBetaMixtureModel.mixtures self /\
      nth_error (AccBetaMixtureModel.mixtures self')
                (length (AccBetaMixtureModel.mixtures self)) = Some m).
Proof.
  unfold AccBetaMixtureModel.feed, raises.
  destruct (Z.eqb_spec (len m) (AccBetaMixtureModel.n_components self))
    as [E | E]; cbn [assert bind].
  - split; [ | split ].
    + split; [ intros [e He]; discriminate He | intros H; contradiction ].
    + reflexivity.
    + intros self' H. injection H as <-. cbn. repeat split.
      * rewrite length_app. cbn. lia.
      * rewrite firstn_app, firstn_all, Nat.sub_diag. cbn. apply app_nil_r.
      * rewrite nth_error_app2, Nat.sub_diag by lia. reflexivity.
  - split; [ | split ].
    + split; [ intros _; exact E | intros _; eexists; reflexivity ].
    + intros H. contradiction.
    + intros self' H. discriminate H.
Qed.

Lemma feed_appends_or_raises_witness :
  AccBetaMixtureModel.feed (AccBetaMixtureModel.init 2 1000)
                           AccBetaMixtureModel.mix_a
  = Ok {| AccBetaMixtureModel.n_components := 2;
          AccBetaMixtureModel.mixtures := [AccBetaMixtureModel.mix_a];
          AccBetaMixtureModel.x := AccBetaMixtureModel.linspace01 1000 |}.
Proof.
  apply (proj1 (proj2 (feed_appends_or_raises
                         (AccBetaMixtureModel.init 2 1000)
                         AccBetaMixtureModel.mix_a))).
  reflexivity.
Defined.

Example feed_three :
  exists s1 s2,
    AccBetaMixtureModel.feed (AccBetaMixtureModel.init 2 2)
                             AccBetaMixtureModel.mix_a = Ok s1 /\
    AccBetaMixtureModel.feed s1 AccBetaMixtureModel.mix_b = Ok s2 /\
    AccBetaMixtureModel.feed s2 AccBetaMixtureModel.mix_c
    = Ok AccBetaMixtureModel.three_fed.
Proof. eexists. eexists. repeat split. Qed.

Example feed_wrong_length :
  AccBetaMixtureModel.feed (AccBetaMixtureModel.init 2 1000) []
  = Raise AssertionError.
Proof. reflexivity. Qed.

Lemma clip_inside (v : R) : (0 <= v <= 50)%R -> AccBetaMixtureModel.clip v 0 50 = v.
Proof.
  intros [H0 H50]. unfold AccBetaMixtureModel.clip.
  rewrite Rmax_left by exact H0. apply Rmin_left. exact H50.
Qed.

Lemma grid_two : AccBetaMixtureModel.linspace01 2 = [0%R; 1%R].
Proof.
  unfold AccBetaMixtureModel.linspace01. cbn. f_equal; [ | f_equal ]; lra.
Qed.

Lemma sqrt_2_half_lt_1 : (sqrt 2 / 2 < 1)%R.
Proof.
  assert (H : (sqrt 2 < 2)%R).
  { rewrite <- (sqrt_pow2 2) at 2 by lra. apply sqrt_lt_1; lra. }
  lra.
Qed.

(** C5, at an accumulator fed three mixtures on the grid [0, 1]: the
    clamped densities of component 0 at the grid point 1 are 1, 2 and 0;
    their sample standard deviation with divisor [N - 1] is 1, while the
    spread curve computed by [plot] has the value [sqrt 2 / 2] there (the
    square root of the sum of squared deviations, divided by [N - 1]). *)
Theorem plot_spread_three_mixtures :
  exists means sd0 sd1,
    AccBetaMixtureModel.plot AccBetaMixtureModel.three_fed
    = Ok {| AccBetaMixtureModel.pdf_means := means;
            AccBetaMixtureModel.pdf_stdevs := Some [sd0; sd1] |} /\
    AccBetaMixtureModel.densities_at AccBetaMixtureModel.three_fed 0 1
    = [1; 2; 0]%R /\
    nth 1 sd0 0%R = (sqrt 2 / 2)%R /\
    AccBetaMixtureModel.sample_stdev
      (AccBetaMixtureModel.densities_at AccBetaMixtureModel.three_fed 0 1)
    = 1%R /\
    nth 1 sd0 0%R
    <> AccBetaMixtureModel.sample_stdev
         (AccBetaMixtureModel.densities_at AccBetaMixtureModel.three_fed 0 1).
Proof.
  assert (Hd : AccBetaMixtureModel.densities_at
                 AccBetaMixtureModel.three_fed 0 1 = [1; 2; 0]%R).
  { unfold AccBetaMixtureModel.densities_at, AccBetaMixtureModel.three_fed.
    cbn [AccBetaMixtureModel.mixtures AccBetaMixtureModel.x map].
    rewrite grid_two.
    unfold AccBetaMixtureModel.mix_a, AccBetaMixtureModel.mix_b,
      AccBetaMixtureModel.mix_c, AccBetaMixtureModel.clipped_pdf.
    cbn [nth fst map AccBetaMixtureModel.pdf AccBetaMixtureModel.beta_1_1
         AccBetaMixtureModel.beta_2_1 AccBetaMixtureModel.beta_1_2].
    rewrite !clip_inside by lra.
    repeat (f_equal; try lra). }
  assert (Hs : AccBetaMixtureModel.sample_stdev [1; 2; 0]%R = 1%R).
  { unfold AccBetaMixtureModel.sample_stdev. cbn [length fold_right map].
    replace (INR 3) with 3%R by (cbn; lra).
    transitivity (sqrt 1); [ f_equal; field | apply sqrt_1 ]. }
  do 3 eexists. split.
  - unfold AccBetaMixtureModel.plot, AccBetaMixtureModel.three_fed.
    cbn [AccBetaMixtureModel.mixtures len length Z.of_nat Z.ltb assert bind
         AccBetaMixtureModel.x fold_left].
    unfold AccBetaMixtureModel.mix_a, AccBetaMixtureModel.mix_b,
      AccBetaMixtureModel.mix_c, AccBetaMixtureModel.mean_terms.
    cbn [map fst AccBetaMixtureModel.add_rows bind AccBetaMixtureModel.vadd
         AccBetaMixtureModel.sq_err_rows].
    reflexivity.
  - split; [ exact Hd | ].
    match goal with
    | |- ?v = _ /\ _ => assert (Hv : v = (sqrt 2 / 2)%R)
    end.
    { rewrite grid_two. unfold AccBetaMixtureModel.clipped_pdf.
      cbn [map AccBetaMixtureModel.vadd AccBetaMixtureModel.sq_err nth
           AccBetaMixtureModel.pdf AccBetaMixtureModel.beta_1_1
           AccBetaMixtureModel.beta_2_1 AccBetaMixtureModel.beta_1_2].
      rewrite !clip_inside by lra.
      replace (INR 3) with 3%R by (cbn; lra).
      f_equal; [ f_equal | ]; lra. }
    split; [ exact Hv | ]. split; [ rewrite Hd; exact Hs | ].
    rewrite Hv, Hd, Hs. pose proof sqrt_2_half_lt_1. lra.
Qed.

(** * Further properties *)

(** ** Running window: errors, invariant, average *)

(** [put] raises exactly when the capacity is not positive and the window
    is empty; with a capacity of at least one it never raises, whatever the
    state of the window. *)
Theorem put_raises_iff (self : RunningAverage.t) (elem : Q) :
  raises (RunningAverage.put self elem)
  <-> (RunningAverage.size self <= 0)%Z /\ RunningAverage.list_ self = [].
Proof.
  unfold RunningAverage.put, raises.
  destruct (Z.leb_spec (RunningAverage.size self)
                       (len (RunningAverage.list_ self))) as [Hle | Hlt].
  - destruct (RunningAverage.list_ self) as [ | y ys ] eqn:E; cbn.
    + split; [ intros _; split; [ exact Hle | reflexivity ]
             | intros _; eexists; reflexivity ].
    + split; [ intros [e He]; discriminate He | intros [_ H]; discriminate H ].
  - cbn. split; [ intros [e He]; discriminate He | ].
    intros [H0 Hnil]. rewrite Hnil in Hlt. cbn in Hlt. lia.
Qed.

Lemma window_step_bound (self w : RunningAverage.t) (op : window_op) :
  (len (RunningAverage.list_ self) <= RunningAverage.size self)%Z ->
  window_step self op = Ok w ->
  RunningAverage.size w = RunningAverage.size self /\
  (len (RunningAverage.list_ w) <= RunningAverage.size w)%Z.
Proof.
  intros Hinv. destruct op as [e | ]; cbn.
  - unfold RunningAverage.put.
    destruct (Z.leb_spec (RunningAverage.size self)
                         (len (RunningAverage.list_ self))) as [Hle | Hlt].
    + destruct (RunningAverage.list_ self) as [ | y ys ] eqn:E; cbn;
        [ discriminate | ].
      intros H. injection H as <-. cbn. split; [ reflexivity | ].
      unfold len in *. rewrite length_app. cbn [length] in *. lia.
    + cbn. intros H. injection H as <-. cbn. split; [ reflexivity | ].
      unfold len in *. rewrite length_app. cbn [length]. lia.
  - unfold RunningAverage.pop.
    destruct (RunningAverage.list_ self) as [ | y ys ] eqn:E; cbn;
      [ discriminate | ].
    intros H. injection H as <-. cbn. split; [ reflexivity | ].
    unfold len in *. cbn [length] in Hinv. lia.
Qed.

(** Whatever the interleaving of [put] and [pop] calls on a fresh window
    of non-negative capacity, a run that does not raise leaves at most
    [size] elements in the window, and the capacity is never changed. *)
Theorem window_run_bound (size : Z) (ops : list window_op)
    (w : RunningAverage.t) :
  (0 <= size)%Z ->
  window_run (RunningAverage.init size) ops = Ok w ->
  RunningAverage.size w = size /\ (len (RunningAverage.list_ w) <= size)%Z.
Proof.
  intros Hsize.
  assert (Hgen : forall ops self,
             (len (RunningAverage.list_ self) <= RunningAverage.size self)%Z ->
             window_run self ops = Ok w ->
             RunningAverage.size w = RunningAverage.size self /\
             (len (RunningAverage.list_ w) <= RunningAverage.size w)%Z).
  { clear. induction ops as [ | op rest IH ]; intros self Hinv; cbn.
    - intros H. injection H as <-. split; [ reflexivity | exact Hinv ].
    - destruct (window_step self op) as [self' | e] eqn:E; cbn;
        [ | discriminate ].
      destruct (@window_step_bound self self' op Hinv E) as [Hs Hb].
      intros H. destruct (IH self' Hb H) as [Hs' Hb'].
      split; [ congruence | exact Hb' ]. }
  intros Hrun. destruct (Hgen ops (RunningAverage.init size)) as [Hs Hb].
  - cbn. exact Hsize.
  - exact Hrun.
  - cbn in Hs. split; [ exact Hs | rewrite Hs in Hb; exact Hb ].
Qed.

Lemma window_run_bound_witness :
  exists w,
    window_run (RunningAverage.init 2) [Put 1; Put 2; Pop; Put 3; Put 4]
    = Ok w /\
    RunningAverage.size w = 2%Z /\ (len (RunningAverage.list_ w) <= 2)%Z.
Proof.
  eexists. split; [ reflexivity | ].
  apply (@window_run_bound 2 [Put 1; Put 2; Pop; Put 3; Put 4]).
  - discriminate.
  - reflexivity.
Defined.

Lemma window_run_app (self : RunningAverage.t) (ops1 ops2 : list window_op) :
  window_run self (ops1 ++ ops2)
  = bind (window_run self ops1) (fun w => window_run w ops2).
Proof.
  revert self. induction ops1 as [ | op ops1 IH ]; intros self; cbn.
  - reflexivity.
  - destruct (window_step self op) as [w | ex]; cbn; [ apply IH | reflexivity ].
Qed.

Lemma window_run_puts (self : RunningAverage.t) (elems : list Q) :
  window_run self (map Put elems) = RunningAverage.puts self elems.
Proof.
  revert self. induction elems as [ | e l IH ]; intros self; cbn.
  - reflexivity.
  - destruct (RunningAverage.put self e) as [w | ex]; cbn; [ apply IH | reflexivity ].
Qed.

Lemma window_run_pops (size : Z) (l : list Q) (k : nat) :
  (k <= length l)%nat ->
  window_run {| RunningAverage.list_ := l; RunningAverage.size := size |}
             (repeat Pop k)
  = Ok {| RunningAverage.list_ := skipn k l; RunningAverage.size := size |}.
Proof.
  revert l. induction k as [ | k IH ]; intros l Hk; cbn.
  - reflexivity.
  - destruct l as [ | y ys ]; cbn in Hk; [ lia | ].
    cbn. apply IH. lia.
Qed.

(** Elements leave the window in the order they went in: after [put]ting
    values that fit the capacity, [k] calls of [pop] leave the values
    without their first [k]; one [pop] more than there are values raises
    [IndexError]. *)
Theorem window_pops_oldest_first (size : Z) (elems : list Q) (k : nat) :
  (1 <= size)%Z -> (len elems <= size)%Z -> (k <= length elems)%nat ->
  window_run (RunningAverage.init size) (map Put elems ++ repeat Pop k)
  = Ok {| RunningAverage.list_ := skipn k elems;
          RunningAverage.size := size |} /\
  window_run (RunningAverage.init size)
             (map Put elems ++ repeat Pop (S (length elems)))
  = Raise IndexError.
Proof.
  intros Hsize Hfit Hk.
  destruct (running_puts_last elems Hsize) as (w & Hw & Hlist & _).
  pose proof (puts_size _ _ Hw) as Hsz. cbn in Hsz.
  rewrite lastn_short in Hlist by (unfold len in Hfit; lia).
  assert (Ew : w = {| RunningAverage.list_ := elems;
                      RunningAverage.size := size |}).
  { destruct w as [l s]. cbn in *. congruence. }
  subst w. split.
  - rewrite window_run_app, window_run_puts, Hw. cbn [bind].
    apply window_run_pops. exact Hk.
  - rewrite window_run_app, window_run_puts, Hw. cbn [bind].
    replace (S (length elems)) with (length elems + 1)%nat by lia.
    rewrite repeat_app, window_run_app, window_run_pops by lia.
    cbn [bind]. rewrite skipn_all. reflexivity.
Qed.

Lemma window_pops_oldest_first_witness :
  window_run (RunningAverage.init 3) (map Put [1; 2; 3] ++ repeat Pop 2)
  = Ok {| RunningAverage.list_ := skipn 2 [1; 2; 3];
          RunningAverage.size := 3 |} /\
  window_run (RunningAverage.init 3)
             (map Put [1; 2; 3] ++ repeat Pop (S (length [1; 2; 3])))
  = Raise IndexError.
Proof.
  apply (@window_pops_oldest_first 3 [1; 2; 3] 2).
  - discriminate.
  - discriminate.
  - repeat constructor.
Defined.

Lemma Qsum_app (l1 l2 : list Q) :
  fold_right Qplus 0 (l1 ++ l2)
  == fold_right Qplus 0 l1 + fold_right Qplus 0 l2.
Proof.
  induction l1 as [ | v l1 IH ]; cbn.
  - lra.
  - rewrite IH. lra.
Qed.

Lemma Qsum_bounds (lo hi : Q) (l : list Q) :
  Forall (fun v => lo <= v /\ v <= hi) l ->
  inject_Z (len l) * lo <= fold_right Qplus 0 l /\
  fold_right Qplus 0 l <= inject_Z (len l) * hi.
Proof.
  induction 1 as [ | v l [Hlo Hhi] _ IH ].
  - unfold len. cbn [length Z.of_nat fold_right].
    change (inject_Z 0) with 0. lra.
  - unfold len in *. cbn [length fold_right].
    rewrite Nat2Z.inj_succ, <- Z.add_1_r, inject_Z_plus.
    change (inject_Z 1) with 1. lra.
Qed.

(** The average of a non-empty window exists and lies between any bounds
    that hold for all of its elements; the empty window has none. *)
Theorem avg_between_bounds (self : RunningAverage.t) (lo hi : Q) :
  Forall (fun v => lo <= v /\ v <= hi) (RunningAverage.list_ self) ->
  (RunningAverage.list_ self = [] -> RunningAverage.avg self = None) /\
  (RunningAverage.list_ self <> [] ->
   exists a, RunningAverage.avg self = Some a /\ lo <= a /\ a <= hi).
Proof.
  intros Hall. unfold RunningAverage.avg. split.
  - intros ->. reflexivity.
  - intros Hne. destruct (RunningAverage.list_ self) as [ | y ys ] eqn:E;
      [ contradiction | ].
    eexists. split; [ reflexivity | ].
    destruct (Qsum_bounds Hall) as [Hlo Hhi].
    assert (Hn : 0 < inject_Z (len (y :: ys))).
    { unfold len. cbn [length]. rewrite Nat2Z.inj_succ.
      change 0 with (inject_Z 0). rewrite <- Zlt_Qlt. lia. }
    split.
    + apply Qle_shift_div_l; [ exact Hn | ]. rewrite Qmult_comm. exact Hlo.
    + apply Qle_shift_div_r; [ exact Hn | ]. rewrite Qmult_comm. exact Hhi.
Qed.

Lemma avg_between_bounds_witness :
  exists a,
    RunningAverage.avg
      {| RunningAverage.list_ := [2; 3; 4]; RunningAverage.size := 3 |}
    = Some a /\ 2 <= a /\ a <= 4.
Proof.
  apply (@avg_between_bounds
           {| RunningAverage.list_ := [2; 3; 4]; RunningAverage.size := 3 |}
           2 4).
  - repeat constructor; discriminate.
  - discriminate.
Defined.

Lemma avg_nonempty (self : RunningAverage.t) :
  RunningAverage.list_ self <> [] ->
  RunningAverage.avg self
  = Some (fold_right Qplus 0 (RunningAverage.list_ self)
          / inject_Z (len (RunningAverage.list_ self))).
Proof.
  unfold RunningAverage.avg.
  destruct (RunningAverage.list_ self); [ contradiction | reflexivity ].
Qed.

(** On a full window of capacity [size >= 1], [put] replaces the oldest
    value [oldest] by the new one and moves the average by
    [(elem - oldest) / size]. *)
Theorem put_full_updates_avg
    (self : RunningAverage.t) (oldest : Q) (rest : list Q) (elem a : Q) :
  RunningAverage.list_ self = oldest :: rest ->
  len (RunningAverage.list_ self) = RunningAverage.size self ->
  RunningAverage.avg self = Some a ->
  exists w a',
    RunningAverage.put self elem = Ok w /\
    RunningAverage.list_ w = rest ++ [elem] /\
    RunningAverage.avg w = Some a' /\
    a' == a + (elem - oldest) / inject_Z (RunningAverage.size self).
Proof.
  intros Hlist Hfull Havg.
  exists {| RunningAverage.list_ := rest ++ [elem];
            RunningAverage.size := RunningAverage.size self |}.
  exists (fold_right Qplus 0 (rest ++ [elem])
          / inject_Z (len (rest ++ [elem]))).
  split; [ | split; [ reflexivity | split ] ].
  - unfold RunningAverage.put. rewrite <- Hfull, Z.leb_refl, Hlist.
    reflexivity.
  - apply avg_nonempty. cbn. destruct rest; discriminate.
  - rewrite avg_nonempty in Havg by (rewrite Hlist; discriminate).
    injection Havg as <-. rewrite <- Hfull, Hlist.
    assert (Hlen : len (rest ++ [elem]) = len (oldest :: rest)).
    { unfold len. rewrite length_app. cbn [length]. lia. }
    rewrite Hlen, Qsum_app. cbn [fold_right].
    assert (Hn : 0 < inject_Z (len (oldest :: rest))).
    { unfold len. cbn [length]. rewrite Nat2Z.inj_succ.
      change 0 with (inject_Z 0). rewrite <- Zlt_Qlt. lia. }
    field. intros H0. rewrite H0 in Hn. apply (Qlt_irrefl 0 Hn).
Qed.

Lemma put_full_updates_avg_witness :
  exists w a',
    RunningAverage.put
      {| RunningAverage.list_ := [1; 2; 3]; RunningAverage.size := 3 |} 4
    = Ok w /\
    RunningAverage.list_ w = [2; 3] ++ [4] /\
    RunningAverage.avg w = Some a' /\
    a' == (1 + (2 + (3 + 0))) / inject_Z (len [1; 2; 3])
          + (4 - 1) / inject_Z 3.
Proof.
  apply (@put_full_updates_avg
           {| RunningAverage.list_ := [1; 2; 3]; RunningAverage.size := 3 |}
           1 [2; 3] 4).
  - reflexivity.
  - reflexivity.
  - reflexivity.
Defined.

(** ** Coordinates: identity and composition of rescalings *)

Lemma unnormalize_size_vector (self : Normalizer.t)
    (coords : list (np.float * np.float)) (h w : Q) :
  coords <> [] ->
  Normalizer.unnormalize self coords (size_vector h w)
  = Ok (map (fun yx =>
               (np.multiply
                  (np.divide h (inject_Z (fst (Normalizer.new_size self))))
                  (fst yx),
                np.multiply
                  (np.divide w (inject_Z (snd (Normalizer.new_size self))))
                  (snd yx)))
            coords).
Proof.
  intros Hne. unfold Normalizer.unnormalize, size_vector, ndim.
  cbn [shape data length Nat.eqb hd assert bind fst snd].
  destruct coords as [ | r l ]; [ contradiction | ].
  rewrite combine_repeat_map. reflexivity.
Qed.

Lemma int_inject_Z (z : Z) : Normalizer.int (inject_Z z) = z.
Proof. unfold Normalizer.int. cbn. apply Z.quot_1_r. Qed.

Lemma inject_Z_nonzero (z : Z) : z <> 0%Z -> ~ inject_Z z == 0.
Proof.
  intros Hz H. apply Hz. unfold Qeq in H. cbn in H. lia.
Qed.

Lemma divide_nonzero (a : Q) (z : Z) :
  z <> 0%Z -> np.divide a (inject_Z z) = np.Finite (a / inject_Z z).
Proof.
  intros Hz. unfold np.divide.
  rewrite Qeq_bool_false; [ reflexivity | apply inject_Z_nonzero, Hz ].
Qed.

Lemma finite_rows_nonempty (coords : list (Q * Q)) :
  coords <> [] -> finite_rows coords <> [].
Proof. destruct coords; [ contradiction | discriminate ]. Qed.

(** Rescaling to the size the coordinates already refer to changes
    nothing: with [orig_img_size] equal to the (nonzero) target size every
    row of a non-empty sequence of finite rows comes back with the same
    value. *)
Theorem unnormalize_same_size
    (self : Normalizer.t) (coords : list (Q * Q)) (H W : Z) :
  Normalizer.new_size self = (H, W) -> H <> 0%Z -> W <> 0%Z ->
  coords <> [] ->
  exists out,
    Normalizer.unnormalize self (finite_rows coords)
      (size_vector (inject_Z H) (inject_Z W))
    = Ok out /\
    Forall2 row_eq out coords.
Proof.
  intros Hsize HH HW Hne. eexists.
  split; [ apply unnormalize_size_vector, finite_rows_nonempty, Hne | ].
  rewrite Hsize. cbn [fst snd].
  rewrite (@divide_nonzero (inject_Z H) H HH), (@divide_nonzero (inject_Z W) W HW).
  pose proof (inject_Z_nonzero HH). pose proof (inject_Z_nonzero HW).
  clear Hne. unfold finite_rows.
  induction coords as [ | [y x] l IH ]; cbn [map]; constructor.
  - split; cbn [fst snd np.multiply float_eq]; field; assumption.
  - exact IH.
Qed.

Lemma unnormalize_same_size_witness :
  exists out,
    Normalizer.unnormalize (Normalizer.init 100 80)
      (finite_rows [(50, 40); (7, 9)])
      (size_vector (inject_Z 100) (inject_Z 80)) = Ok out /\
    Forall2 row_eq out [(50, 40); (7, 9)].
Proof.
  apply (@unnormalize_same_size (Normalizer.init 100 80)
           [(50, 40); (7, 9)] 100 80).
  - reflexivity.
  - discriminate.
  - discriminate.
  - discriminate.
Defined.

(** Rescalings compose: taking a non-empty sequence of finite rows from
    the target size [(H, W)] to an image of integer size [(h, w)], and from
    there (with a normalizer built for [(h, w)]) to a size [(h2, w2)],
    gives the rows that the first normalizer gives for [(h2, w2)]
    directly, namely [(h2/H * y, w2/W * x)].  With [(h2, w2) = (H, W)] the
    round trip returns the original rows. *)
Theorem unnormalize_compose
    (coords : list (Q * Q)) (H W h w : Z) (h2 w2 : Q) :
  H <> 0%Z -> W <> 0%Z -> h <> 0%Z -> w <> 0%Z -> coords <> [] ->
  exists mid out direct,
    Normalizer.unnormalize (Normalizer.init (inject_Z H) (inject_Z W))
      (finite_rows coords) (size_vector (inject_Z h) (inject_Z w)) = Ok mid /\
    Normalizer.unnormalize (Normalizer.init (inject_Z h) (inject_Z w)) mid
      (size_vector h2 w2) = Ok out /\
    Normalizer.unnormalize (Normalizer.init (inject_Z H) (inject_Z W))
      (finite_rows coords) (size_vector h2 w2) = Ok direct /\
    Forall2 row_eq out
      (map (fun yx => (h2 / inject_Z H * fst yx, w2 / inject_Z W * snd yx))
           coords) /\
    Forall2 row_eq direct
      (map (fun yx => (h2 / inject_Z H * fst yx, w2 / inject_Z W * snd yx))
           coords).
Proof.
  intros HH HW Hh Hw Hne.
  pose proof (finite_rows_nonempty Hne) as Hne'.
  eexists. eexists. eexists.
  split; [ apply unnormalize_size_vector, Hne' | ].
  split; [ apply unnormalize_size_vector;
           destruct coords; [ contradiction | discriminate ] | ].
  split; [ apply unnormalize_size_vector, Hne' | ].
  unfold Normalizer.init. cbn [Normalizer.new_size fst snd].
  rewrite !int_inject_Z.
  rewrite !(fun a => @divide_nonzero a H HH), !(fun a => @divide_nonzero a W HW),
    !(fun a => @divide_nonzero a h Hh), !(fun a => @divide_nonzero a w Hw).
  pose proof (inject_Z_nonzero HH). pose proof (inject_Z_nonzero HW).
  pose proof (inject_Z_nonzero Hh). pose proof (inject_Z_nonzero Hw).
  clear Hne Hne'. unfold finite_rows. rewrite map_map.
  split; induction coords as [ | [y x] l IH ]; cbn [map]; constructor;
    try exact IH;
    split; cbn [fst snd np.multiply float_eq]; field; auto.
Qed.

Lemma unnormalize_compose_witness :
  exists mid out direct,
    Normalizer.unnormalize (Normalizer.init (inject_Z 100) (inject_Z 100))
      (finite_rows [(50, 50)])
      (size_vector (inject_Z 200) (inject_Z 300)) = Ok mid /\
    Normalizer.unnormalize (Normalizer.init (inject_Z 200) (inject_Z 300))
      mid (size_vector 100 100) = Ok out /\
    Normalizer.unnormalize (Normalizer.init (inject_Z 100) (inject_Z 100))
      (finite_rows [(50, 50)]) (size_vector 100 100) = Ok direct /\
    Forall2 row_eq out
      (map (fun yx => (100 / inject_Z 100 * fst yx,
                       100 / inject_Z 100 * snd yx)) [(50, 50)]) /\
    Forall2 row_eq direct
      (map (fun yx => (100 / inject_Z 100 * fst yx,
                       100 / inject_Z 100 * snd yx)) [(50, 50)]).
Proof.
  apply (@unnormalize_compose [(50, 50)] 100 100 200 300 100 100);
    discriminate.
Defined.

(** ** Thresholding: errors, monotonicity, the Otsu level *)

Lemma inRange_pixel_lower (lo1 lo2 hi : Q) (px : list Q) :
  lo1 <= lo2 ->
  cv2.inRange_pixel lo2 hi px = 255%Z -> cv2.inRange_pixel lo1 hi px = 255%Z.
Proof.
  intros Hle. unfold cv2.inRange_pixel, cv2.scalar4.
  destruct px as [ | v px ]; [ reflexivity | ].
  cbn [cv2.inRange_channels].
  match goal with
  | |- (if _ && _ && ?r then _ else _) = _ -> _ => destruct r
  end;
    rewrite ?andb_true_r, ?andb_false_r; [ | intros H; discriminate H ].
  destruct (Qle_bool lo2 v) eqn:E1; [ | intros H; discriminate H ].
  destruct (Qle_bool v hi) eqn:E2; [ | intros H; discriminate H ].
  intros _. apply Qle_bool_iff in E1.
  assert (E : Qle_bool lo1 v = true).
  { apply Qle_bool_iff. eapply Qle_trans; eassumption. }
  rewrite E. reflexivity.
Qed.

(** The masks [cv2.inRange] returns for two lower bounds are maps, over
    positions that depend on the array only, of the element test or of the
    pixel test. *)
Lemma inRange_kind (array : ndarray Q) (lo1 lo2 hi : Q)
    (mask1 mask2 : ndarray Z) :
  cv2.inRange array lo1 hi = Ok mask1 ->
  cv2.inRange array lo2 hi = Ok mask2 ->
  (data mask1 = map (cv2.inRange1 lo1 hi) (data array) /\
   data mask2 = map (cv2.inRange1 lo2 hi) (data array)) \/
  exists c n,
    data mask1
    = map (fun p => cv2.inRange_pixel lo1 hi (cv2.pixel c (data array) p))
          (seq 0 n) /\
    data mask2
    = map (fun p => cv2.inRange_pixel lo2 hi (cv2.pixel c (data array) p))
          (seq 0 n).
Proof.
  unfold cv2.inRange.
  destruct (data array) as [ | v0 l0 ]; [ discriminate | ].
  destruct (cv2.channels (shape array)) as [ [ [h w] c ] | ] eqn:Ec.
  - destruct (c <=? 4)%nat; [ | discriminate ].
    intros H1 H2. right. exists c, (h * w)%nat.
    apply (f_equal (fun r => match r with Ok m => data m | Raise _ => [] end))
      in H1, H2.
    split; symmetry; assumption.
  - intros H1 H2. left.
    apply (f_equal (fun r => match r with Ok m => data m | Raise _ => [] end))
      in H1, H2.
    split; symmetry; assumption.
Qed.

(** Lowering the lower bound of [cv2.inRange] keeps every marked element
    marked, on a matrix and on an image with channels alike. *)
Lemma inRange_lower (array : ndarray Q) (lo1 lo2 hi : Q)
    (mask1 mask2 : ndarray Z) :
  lo1 <= lo2 ->
  cv2.inRange array lo1 hi = Ok mask1 ->
  cv2.inRange array lo2 hi = Ok mask2 ->
  forall i, nth_error (data mask2) i = Some 255%Z ->
            nth_error (data mask1) i = Some 255%Z.
Proof.
  intros Hle H1 H2 i.
  destruct (@inRange_kind array lo1 lo2 hi mask1 mask2 H1 H2)
    as [[E1 E2] | (c & n & E1 & E2)]; rewrite E1, E2, !nth_error_map.
  - destruct (nth_error (data array) i) as [v | ]; cbn [option_map];
      [ | intros H; discriminate H ].
    intros H. injection H as H. apply inRange1_in in H. destruct H as [Ha Hb].
    f_equal. apply inRange1_in. split; [ | exact Hb ].
    eapply Qle_trans; eassumption.
  - destruct (nth_error (seq 0 n) i) as [p | ]; cbn [option_map];
      [ | intros H; discriminate H ].
    intros H. injection H as H. f_equal.
    exact (@inRange_pixel_lower lo1 lo2 hi _ Hle H).
Qed.

(** On a 2-D array [threshold] raises exactly when the array is empty or,
    under the mixture policy, when the fit raises.  On an empty array the
    Otsu policy raises the [ValueError] of [array.min()], and the fixed
    policy the error of [cv2.inRange]. *)
Theorem threshold_raises_iff
    (otsu_level : list Z -> Z)
    (estimate : list Q -> list Z -> result bmm_fit)
    (array : ndarray Q) (tau : Q) :
  ndim array = 2%nat ->
  (raises (threshold otsu_level estimate array tau)
   <-> data array = [] \/
       (tau == -2 /\ raises (estimate (np.flatten array) [0; 1]%Z))) /\
  (data array = [] -> tau == -1 ->
   threshold otsu_level estimate array tau = Raise ValueError) /\
  (data array = [] -> ~ tau == -1 -> ~ tau == -2 ->
   threshold otsu_level estimate array tau = Raise CvError).
Proof.
  intros Hdim. split; [ | split ].
  - destruct (data array) as [ | v l ] eqn:Ed.
    + split; [ intros _; left; reflexivity | intros _ ].
      unfold threshold, raises.
      destruct (Qeq_bool tau (-1)); [ rewrite Ed; eexists; reflexivity | ].
      destruct (Qeq_bool tau (-2)).
      * destruct (estimate (np.flatten array) [0; 1]%Z)
          as [[[[[a1 b1] [a2 b2]] [pi1 pi2]] niter] | e]; cbn [bind];
          [ rewrite (@inRange_empty array _ _ Ed) | ];
          eexists; reflexivity.
      * rewrite (@inRange_empty array _ _ Ed). eexists; reflexivity.
    + assert (Hne : data array <> []) by (rewrite Ed; discriminate).
      destruct (Qeq_bool tau (-1)) eqn:E1.
      * apply Qeq_bool_iff in E1.
        destruct (np_min_max_nonempty Hne) as (minn & maxx & Hmin & Hmax).
        assert (Eq : threshold otsu_level estimate array tau
                     = threshold otsu_level estimate array (-1)).
        { unfold threshold. apply Qeq_bool_iff in E1. rewrite E1. reflexivity. }
        rewrite Eq, (@threshold_otsu_eq otsu_level estimate array minn maxx
                       Hdim Hmin Hmax).
        split.
        -- intros [e He]. discriminate He.
        -- intros [H | [H _]]; [ discriminate H | ].
           rewrite E1 in H. discriminate H.
      * unfold threshold, raises. rewrite E1.
        destruct (Qeq_bool tau (-2)) eqn:E2.
        -- apply Qeq_bool_iff in E2.
           destruct (estimate (np.flatten array) [0; 1]%Z)
             as [[[[[a1 b1] [a2 b2]] [pi1 pi2]] niter] | e]; cbn [bind].
           ++ rewrite (@inRange_matrix array _ _ Hdim Hne). cbn [bind].
              split; [ intros [e He]; discriminate He | ].
              intros [H | [_ [e He]]]; discriminate.
           ++ split; [ intros _; right; split; [ exact E2 | eexists; reflexivity ]
                     | intros _; eexists; reflexivity ].
        -- assert (N2 : ~ tau == -2).
           { intros H. apply Qeq_bool_iff in H. congruence. }
           rewrite (@inRange_matrix array _ _ Hdim Hne). cbn [bind].
           split; [ intros [e He]; discriminate He | ].
           intros [H | [H _]]; [ discriminate H | contradiction ].
  - intros Hd E1. unfold threshold. apply Qeq_bool_iff in E1.
    rewrite E1, Hd. reflexivity.
  - intros Hd N1 N2. unfold threshold.
    rewrite (Qeq_bool_false N1), (Qeq_bool_false N2), (inRange_empty _ _ _ Hd).
    reflexivity.
Qed.

Lemma threshold_raises_iff_witness :
  (raises (threshold cv2.otsu no_fit three_pixels (-2))
   <-> data three_pixels = [] \/
       (-2 == -2 /\ raises (no_fit (np.flatten three_pixels) [0; 1]%Z))) /\
  (data three_pixels = [] -> -2 == -1 ->
   threshold cv2.otsu no_fit three_pixels (-2) = Raise ValueError) /\
  (data three_pixels = [] -> ~ -2 == -1 -> ~ -2 == -2 ->
   threshold cv2.otsu no_fit three_pixels (-2) = Raise CvError).
Proof.
  apply (@threshold_raises_iff cv2.otsu no_fit three_pixels (-2)).
  reflexivity.
Defined.

(** Raising a fixed threshold can only clear mask elements: every pixel
    marked at the higher threshold is marked at the lower one.  This holds
    of the masks of an array of any shape; on a non-empty 2-D array both
    calls return a mask together with their threshold. *)
Theorem threshold_fixed_monotone
    (otsu_level : list Z -> Z)
    (estimate : list Q -> list Z -> result bmm_fit)
    (array : ndarray Q) (tau1 tau2 : Q) :
  data array <> [] ->
  ~ tau1 == -1 -> ~ tau1 == -2 -> ~ tau2 == -1 -> ~ tau2 == -2 ->
  tau1 <= tau2 ->
  (ndim array = 2%nat ->
   exists mask1 mask2,
     threshold otsu_level estimate array tau1 = Ok (Mask_tau mask1 tau1) /\
     threshold otsu_level estimate array tau2 = Ok (Mask_tau mask2 tau2)) /\
  (forall mask1 mask2 t1 t2,
     threshold otsu_level estimate array tau1 = Ok (Mask_tau mask1 t1) ->
     threshold otsu_level estimate array tau2 = Ok (Mask_tau mask2 t2) ->
     forall i, nth_error (data mask2) i = Some 255%Z ->
               nth_error (data mask1) i = Some 255%Z).
Proof.
  intros Hne Ha Hb Hc Hd Hle. split.
  - intros Hdim. eexists. eexists.
    split; apply threshold_fixed_eq; assumption.
  - intros mask1 mask2 t1 t2. unfold threshold.
    rewrite (Qeq_bool_false Ha), (Qeq_bool_false Hb),
      (Qeq_bool_false Hc), (Qeq_bool_false Hd).
    destruct (cv2.inRange array tau1 1) as [m1 | e1] eqn:E1; [ | discriminate ].
    destruct (cv2.inRange array tau2 1) as [m2 | e2] eqn:E2; [ | discriminate ].
    cbn [bind]. intros H1 H2. injection H1 as <- _. injection H2 as <- _.
    exact (@inRange_lower array tau1 tau2 1 m1 m2 Hle E1 E2).
Qed.

Lemma threshold_fixed_monotone_witness :
  (ndim three_pixels = 2%nat ->
   exists mask1 mask2,
     threshold cv2.otsu no_fit three_pixels (1 # 5)
     = Ok (Mask_tau mask1 (1 # 5)) /\
     threshold cv2.otsu no_fit three_pixels (1 # 2)
     = Ok (Mask_tau mask2 (1 # 2))) /\
  (forall mask1 mask2 t1 t2,
     threshold cv2.otsu no_fit three_pixels (1 # 5) = Ok (Mask_tau mask1 t1) ->
     threshold cv2.otsu no_fit three_pixels (1 # 2) = Ok (Mask_tau mask2 t2) ->
     forall i, nth_error (data mask2) i = Some 255%Z ->
               nth_error (data mask1) i = Some 255%Z).
Proof.
  apply (@threshold_fixed_monotone cv2.otsu no_fit three_pixels (1 # 5) (1 # 2));
    try discriminate; intros H; discriminate H.
Defined.





Lemma levels_range (i : Z) : In i cv2.levels -> (0 <= i <= 255)%Z.
Proof.
  unfold cv2.levels. rewrite in_map_iff. intros (k & <- & Hk).
  apply in_seq in Hk. lia.
Qed.

Lemma levels_split :
  cv2.levels = map Z.of_nat (seq 0 255) ++ [255%Z].
Proof. vm_compute. reflexivity. Qed.

Lemma levels_NoDup : NoDup cv2.levels.
Proof.
  unfold cv2.levels. apply Finite.Injective_map_NoDup.
  - intros x y. apply Nat2Z.inj.
  - apply seq_NoDup.
Qed.

Lemma combine_map_self {A B} (f : A -> B) (l : list A) :
  combine l (map f l) = map (fun i => (i, f i)) l.
Proof. induction l as [ | v l IH ]; cbn; [ | rewrite IH ]; reflexivity. Qed.

Lemma otsu_step_max_val (scale mu : Q) (st : cv2.otsu_state) (i h : Z) :
  cv2.max_val (cv2.otsu_step scale mu st (i, h)) = cv2.max_val st \/
  cv2.max_val (cv2.otsu_step scale mu st (i, h)) = i.
Proof.
  unfold cv2.otsu_step.
  repeat (destruct (Qlt_le_dec _ _)); cbn [cv2.max_val]; auto.
Qed.

Lemma otsu_step_q1 (scale mu : Q) (st : cv2.otsu_state) (i h : Z) :
  cv2.q1 (cv2.otsu_step scale mu st (i, h))
  == cv2.q1 st + inject_Z h * scale.
Proof.
  unfold cv2.otsu_step.
  repeat (destruct (Qlt_le_dec _ _)); cbn [cv2.q1];
    rewrite !Qred_correct; reflexivity.
Qed.

Lemma otsu_fold_max_val (scale mu : Q) (B : Z) (l : list (Z * Z))
    (st : cv2.otsu_state) :
  (forall ih, In ih l -> (0 <= fst ih <= B)%Z) ->
  (0 <= cv2.max_val st <= B)%Z ->
  (0 <= cv2.max_val (fold_left (cv2.otsu_step scale mu) l st) <= B)%Z.
Proof.
  revert st. induction l as [ | [i h] l IH ]; intros st Hl Hst; cbn [fold_left].
  - exact Hst.
  - apply IH.
    + intros ih Hin. apply Hl. right. exact Hin.
    + pose proof (Hl (i, h) (or_introl eq_refl)) as Hi. cbn in Hi.
      destruct (otsu_step_max_val scale mu st i h) as [E | E]; rewrite E; lia.
Qed.

Lemma otsu_fold_q1 (scale mu : Q) (l : list (Z * Z)) (st : cv2.otsu_state) :
  cv2.q1 (fold_left (cv2.otsu_step scale mu) l st)
  == cv2.q1 st + inject_Z (fold_right Z.add 0%Z (map snd l)) * scale.
Proof.
  revert st. induction l as [ | [i h] l IH ]; intros st; cbn [fold_left map snd fold_right].
  - change (inject_Z 0) with 0. lra.
  - rewrite IH, otsu_step_q1, inject_Z_plus. lra.
Qed.

(** The Otsu level is one of the 256 grey levels. *)
Lemma otsu_range (img : list Z) : (0 <= cv2.otsu img <= 255)%Z.
Proof.
  unfold cv2.otsu. apply otsu_fold_max_val.
  - intros [i h] Hin. apply in_combine_l in Hin. cbn. apply levels_range, Hin.
  - cbn. lia.
Qed.

Lemma indicator_sum (v : Z) (l : list Z) :
  NoDup l -> In v l ->
  fold_right Z.add 0%Z
    (map (fun i => if Z.eq_dec v i then 1%Z else 0%Z) l) = 1%Z.
Proof.
  induction 1 as [ | x l Hx Hnd IH ]; intros Hin; [ contradiction | ].
  cbn [map fold_right]. destruct (Z.eq_dec v x) as [-> | Hne].
  - assert (E : fold_right Z.add 0%Z
                  (map (fun i => if Z.eq_dec x i then 1%Z else 0%Z) l) = 0%Z).
    { clear IH Hin Hnd. induction l as [ | y l IHl ]; cbn [map fold_right];
        [ reflexivity | ].
      destruct (Z.eq_dec x y) as [-> | _]; [ exfalso; apply Hx; left; reflexivity | ].
      rewrite IHl; [ reflexivity | ]. intros H. apply Hx. right. exact H. }
    rewrite E. reflexivity.
  - destruct Hin as [-> | Hin]; [ contradiction | ].
    rewrite (IH Hin). reflexivity.
Qed.

Lemma hist_total (img : list Z) :
  Forall (fun v => (0 <= v < 256)%Z) img ->
  fold_right Z.add 0%Z (cv2.hist img) = Z.of_nat (length img).
Proof.
  unfold cv2.hist. induction 1 as [ | v img Hv _ IH ].
  - induction cv2.levels as [ | i l IHl ]; cbn in *;
      [ reflexivity | exact IHl ].
  - assert (Hin : In v cv2.levels).
    { unfold cv2.levels. apply in_map_iff. exists (Z.to_nat v).
      split; [ lia | apply in_seq; lia ]. }
    pose proof (@indicator_sum v cv2.levels levels_NoDup Hin) as Hone.
    cbn [length]. rewrite Nat2Z.inj_succ, <- IH, <- Z.add_1_l, <- Hone.
    clear. induction cv2.levels as [ | i l IHl ]; cbn [map fold_right];
      [ reflexivity | ].
    rewrite IHl. cbn [count_occ].
    destruct (Z.eq_dec v i); lia.
Qed.

(** On a non-empty 8-bit image the Otsu level is below the top level. *)
Lemma otsu_below_top (img : list Z) :
  img <> [] -> Forall (fun v => (0 <= v < 256)%Z) img ->
  (0 <= cv2.otsu img <= 254)%Z.
Proof.
  intros Hne Hbyte. unfold cv2.otsu.
  set (scale := Qred (1 / inject_Z (Z.of_nat (length img)))).
  set (mu := Qred _).
  set (count := fun i => Z.of_nat (count_occ Z.eq_dec img i)).
  assert (Hcomb : combine cv2.levels (cv2.hist img)
                  = map (fun i => (i, count i)) cv2.levels)
    by apply combine_map_self.
  rewrite Hcomb, levels_split, map_app, fold_left_app.
  set (st0 := {| cv2.mu1 := 0; cv2.q1 := 0; cv2.max_sigma := 0;
                 cv2.max_val := 0%Z |}).
  set (st := fold_left (cv2.otsu_step scale mu)
               (map (fun i => (i, count i)) (map Z.of_nat (seq 0 255))) st0).
  assert (Hst : (0 <= cv2.max_val st <= 254)%Z).
  { apply otsu_fold_max_val; [ | cbn; lia ].
    intros [i h] Hin. apply in_map_iff in Hin.
    destruct Hin as (j & Hj & Hin). injection Hj as <- _.
    apply in_map_iff in Hin. destruct Hin as (k & <- & Hk).
    apply in_seq in Hk. cbn. lia. }
  assert (Hq : cv2.q1 st + inject_Z (count 255%Z) * scale == 1).
  { unfold st. rewrite otsu_fold_q1. cbn [cv2.q1 st0].
    pose proof (@hist_total img Hbyte) as Htot.
    unfold cv2.hist in Htot. fold count in Htot.
    rewrite levels_split, map_app, fold_right_app in Htot.
    cbn [map fold_right] in Htot.
    assert (Hsum : forall (l : list Z) (z : Z),
               fold_right Z.add z l = (fold_right Z.add 0 l + z)%Z).
    { clear. induction l as [ | y l IHl ]; intros z; cbn [fold_right];
        [ lia | rewrite IHl; lia ]. }
    rewrite Hsum in Htot. rewrite map_map. cbn [snd].
    set (s := fold_right Z.add 0%Z (map count (map Z.of_nat (seq 0 255)))) in *.
    assert (Hn : (0 < Z.of_nat (length img))%Z).
    { destruct img; [ contradiction | cbn [length]; lia ]. }
    assert (HnQ : ~ inject_Z (Z.of_nat (length img)) == 0).
    { apply inject_Z_nonzero. lia. }
    unfold scale. rewrite Qred_correct.
    assert (E : inject_Z s + inject_Z (count 255%Z)
                == inject_Z (Z.of_nat (length img))).
    { rewrite <- inject_Z_plus, <- Htot. apply inject_Z_injective. lia. }
    setoid_replace (0 + inject_Z s * (1 / inject_Z (Z.of_nat (length img)))
                    + inject_Z (count 255%Z)
                      * (1 / inject_Z (Z.of_nat (length img))))
      with ((inject_Z s + inject_Z (count 255%Z))
            / inject_Z (Z.of_nat (length img)))
      by (field; exact HnQ).
    rewrite E. field. exact HnQ. }
  cbn [map fold_left]. unfold cv2.otsu_step.
  destruct (Qlt_le_dec _ _) as [_ | Hge]; [ cbn [cv2.max_val]; exact Hst | ].
  exfalso.
  pose proof (Q.le_min_r (Qred (cv2.q1 st + Qred (inject_Z (count 255%Z) * scale)))
                (Qred (1 - Qred (cv2.q1 st + Qred (inject_Z (count 255%Z) * scale)))))
    as Hmin.
  rewrite !Qred_correct in Hmin. rewrite !Qred_correct in Hge.
  rewrite Hq in Hmin. rewrite Hq in Hge.
  assert (Heps : 0 < cv2.FLT_EPSILON) by reflexivity.
  set (m := Qmin 1 (1 - 1)) in *. lra.
Qed.

Lemma level8_byte (minn maxx : Q) (l : list Q) :
  Forall (fun v => (0 <= v < 256)%Z) (map (level8 minn maxx) l).
Proof.
  apply Forall_map, Forall_forall. intros v _.
  unfold level8, np.uint8. apply Z.mod_pos_bound. lia.
Qed.

Lemma np_min_le_max (l : list Q) (minn maxx : Q) :
  np.min l = Ok minn -> np.max l = Ok maxx -> minn <= maxx.
Proof.
  intros Hmin Hmax. destruct l as [ | v t ]; [ discriminate | ].
  apply Qle_trans with v.
  - eapply np_min_le; [ exact Hmin | left; reflexivity ].
  - eapply np_max_ge; [ exact Hmax | left; reflexivity ].
Qed.

(** The threshold the Otsu policy reports lies within the range of the
    array, and strictly below its maximum when the array is not constant:
    on a 2-D array whose range [max - min] is a finite double, given that
    the level the Otsu search reports is one of the grey levels 0 to
    254. *)
Theorem threshold_otsu_tau_in_range
    (otsu_level : list Z -> Z)
    (estimate : list Q -> list Z -> result bmm_fit) (array : ndarray Q)
    (minn maxx : Q) :
  ndim array = 2%nat ->
  np.min (data array) = Ok minn -> np.max (data array) = Ok maxx ->
  maxx - minn <= np.float64_max ->
  (0 <= otsu_level (map (level8 minn maxx) (data array)) <= 254)%Z ->
  exists mask tau,
    threshold otsu_level estimate array (-1) = Ok (Mask_tau mask tau) /\
    minn <= tau /\ tau <= maxx /\ (minn < maxx -> tau < maxx).
Proof.
  intros Hdim Hmin Hmax _ Ht.
  eexists. eexists.
  split; [ exact (@threshold_otsu_eq otsu_level estimate array minn maxx
                    Hdim Hmin Hmax) | ].
  pose proof (np_min_le_max _ Hmin Hmax) as Hle.
  set (t := otsu_level (map (level8 minn maxx) (data array))) in *.
  assert (H0 : 0 <= inject_Z t).
  { change 0 with (inject_Z 0). rewrite <- Zle_Qle. lia. }
  assert (H254 : inject_Z t <= 254).
  { change 254 with (inject_Z 254). rewrite <- Zle_Qle. lia. }
  unfold Qdiv. change (/ 255) with (1 # 255).
  set (d := maxx - minn) in *. assert (Hd : 0 <= d) by (unfold d; lra).
  assert (Hf0 : 0 <= inject_Z t * (1 # 255)) by lra.
  assert (Hf1 : inject_Z t * (1 # 255) <= 254 # 255) by lra.
  pose proof (Qmult_le_0_compat _ _ Hf0 Hd) as Hp0.
  assert (Hp1 : inject_Z t * (1 # 255) * d <= (254 # 255) * d).
  { apply Qmult_le_compat_r; assumption. }
  repeat split; unfold d in *; try lra.
Qed.

Lemma threshold_otsu_tau_in_range_witness :
  exists mask tau,
    threshold cv2.otsu no_fit zero_two (-1) = Ok (Mask_tau mask tau) /\
    0 <= tau /\ tau <= 2 /\ (0 < 2 -> tau < 2).
Proof.
  apply (@threshold_otsu_tau_in_range cv2.otsu no_fit zero_two 0 2).
  - reflexivity.
  - reflexivity.
  - reflexivity.
  - apply float64_max_large. discriminate.
  - apply otsu_below_top; [ discriminate | apply level8_byte ].
Defined.

Lemma round_comp (x y : Q) : x == y -> np.round x = np.round y.
Proof.
  intros H. unfold np.round.
  rewrite (Qfloor_comp _ _ H).
  assert (E : (x - inject_Z (Qfloor y) ?= 1 # 2)
              = (y - inject_Z (Qfloor y) ?= 1 # 2)).
  { apply Qcompare_comp; [ rewrite H; reflexivity | reflexivity ]. }
  rewrite E. reflexivity.
Qed.

Lemma level8_of_min (minn maxx v : Q) :
  v == minn -> level8 minn maxx v = 0%Z.
Proof.
  intros H. unfold level8.
  rewrite (@round_comp _ 0); [ reflexivity | ].
  rewrite H. unfold Qdiv. ring.
Qed.

Lemma level8_of_max (minn maxx v : Q) :
  minn < maxx -> v == maxx -> level8 minn maxx v = 255%Z.
Proof.
  intros Hlt H. unfold level8.
  rewrite (@round_comp _ 255); [ reflexivity | ].
  rewrite H. field. lra.
Qed.

Lemma fold_left_Qmin_attained (t : list Q) (x : Q) :
  exists v, In v (x :: t) /\ v == fold_left Qmin t x.
Proof.
  revert x. induction t as [ | y t IH ]; intros x; cbn [fold_left].
  - exists x. split; [ left; reflexivity | reflexivity ].
  - destruct (IH (Qmin x y)) as (v & [Hv | Hv] & E).
    + subst v. destruct (Q.min_spec x y) as [[_ Hm] | [_ Hm]].
      * exists x. split; [ left; reflexivity | ]. rewrite <- E, Hm. reflexivity.
      * exists y. split; [ right; left; reflexivity | ].
        rewrite <- E, Hm. reflexivity.
    + exists v. split; [ right; right; exact Hv | exact E ].
Qed.

Lemma fold_left_Qmax_attained (t : list Q) (x : Q) :
  exists v, In v (x :: t) /\ v == fold_left Qmax t x.
Proof.
  revert x. induction t as [ | y t IH ]; intros x; cbn [fold_left].
  - exists x. split; [ left; reflexivity | reflexivity ].
  - destruct (IH (Qmax x y)) as (v & [Hv | Hv] & E).
    + subst v. destruct (Q.max_spec x y) as [[_ Hm] | [_ Hm]].
      * exists y. split; [ right; left; reflexivity | ].
        rewrite <- E, Hm. reflexivity.
      * exists x. split; [ left; reflexivity | ]. rewrite <- E, Hm. reflexivity.
    + exists v. split; [ right; right; exact Hv | exact E ].
Qed.

(** On a 2-D array that is not constant (and whose range [max - min] is
    a finite double) the Otsu mask is never trivial, given that the level
    the Otsu search reports is one of the grey levels 0 to 254: every pixel
    at the minimum is left out (0) and every pixel at the maximum is marked
    (255), so the mask holds at least one 0 and at least one 255. *)
Theorem threshold_otsu_separates_extremes
    (otsu_level : list Z -> Z)
    (estimate : list Q -> list Z -> result bmm_fit) (array : ndarray Q)
    (minn maxx : Q) :
  ndim array = 2%nat ->
  np.min (data array) = Ok minn -> np.max (data array) = Ok maxx ->
  minn < maxx -> maxx - minn <= np.float64_max ->
  (0 <= otsu_level (map (level8 minn maxx) (data array)) <= 254)%Z ->
  exists mask tau,
    threshold otsu_level estimate array (-1) = Ok (Mask_tau mask tau) /\
    (forall i v, nth_error (data array) i = Some v ->
       (v == minn -> nth_error (data mask) i = Some 0%Z) /\
       (v == maxx -> nth_error (data mask) i = Some 255%Z)) /\
    (exists i, nth_error (data mask) i = Some 0%Z) /\
    (exists j, nth_error (data mask) j = Some 255%Z).
Proof.
  intros Hdim Hmin Hmax Hlt _ Ht.
  eexists. eexists.
  split; [ exact (@threshold_otsu_eq otsu_level estimate array minn maxx
                    Hdim Hmin Hmax) | ].
  cbn [data].
  set (t := otsu_level (map (level8 minn maxx) (data array))) in *.
  assert (Hpix : forall i v, nth_error (data array) i = Some v ->
             (v == minn ->
              nth_error (map (cv2.binary1 t 255)
                           (map (level8 minn maxx) (data array))) i
              = Some 0%Z) /\
             (v == maxx ->
              nth_error (map (cv2.binary1 t 255)
                           (map (level8 minn maxx) (data array))) i
              = Some 255%Z)).
  { intros i v Hv. rewrite !nth_error_map, Hv. cbn [option_map].
    split; intros E.
    - rewrite (level8_of_min maxx E). unfold cv2.binary1.
      destruct (Z.ltb_spec t 0); [ lia | reflexivity ].
    - rewrite (level8_of_max Hlt E). unfold cv2.binary1.
      destruct (Z.ltb_spec t 255); [ reflexivity | lia ]. }
  split; [ exact Hpix | ]. split.
  - destruct (data array) as [ | x l ] eqn:Ed; [ discriminate | ].
    cbn in Hmin. injection Hmin as Hmin.
    destruct (fold_left_Qmin_attained l x) as (v & Hin & E).
    rewrite Hmin in E.
    destruct (In_nth_error _ _ Hin) as [i Hi].
    exists i. apply (proj1 (Hpix i v Hi) E).
  - destruct (data array) as [ | x l ] eqn:Ed; [ discriminate | ].
    cbn in Hmax. injection Hmax as Hmax.
    destruct (fold_left_Qmax_attained l x) as (v & Hin & E).
    rewrite Hmax in E.
    destruct (In_nth_error _ _ Hin) as [i Hi].
    exists i. apply (proj2 (Hpix i v Hi) E).
Qed.

Lemma threshold_otsu_separates_extremes_witness :
  exists mask tau,
    threshold cv2.otsu no_fit zero_two (-1) = Ok (Mask_tau mask tau) /\
    (forall i v, nth_error (data zero_two) i = Some v ->
       (v == 0 -> nth_error (data mask) i = Some 0%Z) /\
       (v == 2 -> nth_error (data mask) i = Some 255%Z)) /\
    (exists i, nth_error (data mask) i = Some 0%Z) /\
    (exists j, nth_error (data mask) j = Some 255%Z).
Proof.
  apply (@threshold_otsu_separates_extremes cv2.otsu no_fit zero_two 0 2).
  - reflexivity.
  - reflexivity.
  - reflexivity.
  - reflexivity.
  - apply float64_max_large. discriminate.
  - apply otsu_below_top; [ discriminate | apply level8_byte ].
Defined.

(** The Otsu mask of a 2-D array keeps the shape of the array unless one of
    its sides is 1: the array is squeezed before the binarisation, so a
    single row (or column) of [n] pixels comes back with shape [(n, 1)]. *)
Theorem threshold_otsu_mask_shape
    (otsu_level : list Z -> Z)
    (estimate : list Q -> list Z -> result bmm_fit) (array : ndarray Q)
    (h w : nat) :
  data array <> [] -> shape array = [h; w] ->
  exists mask tau,
    threshold otsu_level estimate array (-1) = Ok (Mask_tau mask tau) /\
    length (data mask) = length (data array) /\
    shape mask = (if (h =? 1)%nat then [w; 1%nat]
                  else if (w =? 1)%nat then [h; 1%nat] else [h; w]).
Proof.
  intros Hne Hshape.
  destruct (np_min_max_nonempty Hne) as (minn & maxx & Hmin & Hmax).
  assert (Hdim : ndim array = 2%nat) by (unfold ndim; rewrite Hshape; reflexivity).
  eexists. eexists.
  split; [ exact (@threshold_otsu_eq otsu_level estimate array minn maxx
                    Hdim Hmin Hmax) | ].
  split; [ cbn [data]; rewrite !length_map; reflexivity | ].
  cbn [shape np.squeeze]. rewrite Hshape. cbn [filter].
  destruct (Nat.eqb_spec h 1) as [-> | Hh];
    destruct (Nat.eqb_spec w 1) as [-> | Hw]; cbn [negb cv2.Mat_shape];
    reflexivity.
Qed.

Lemma threshold_otsu_mask_shape_witness :
  exists mask tau,
    threshold cv2.otsu no_fit zero_two (-1) = Ok (Mask_tau mask tau) /\
    length (data mask) = length (data zero_two) /\
    shape mask = [2; 1]%nat.
Proof.
  apply (@threshold_otsu_mask_shape cv2.otsu no_fit zero_two 1 2).
  - discriminate.
  - reflexivity.
Defined.

(** ** Clustering: candidate points, subsampling, component count *)

Lemma positive_from_spec (l : list Z) (k0 k : nat) :
  In k (positive_from k0 l)
  <-> exists j v, k = (k0 + j)%nat /\ nth_error l j = Some v /\ (0 < v)%Z.
Proof.
  revert k0. induction l as [ | x l IH ]; intros k0; cbn [positive_from].
  - split; [ contradiction | ].
    intros (j & v & _ & H & _). destruct j; discriminate H.
  - destruct (Z.ltb_spec 0 x) as [Hx | Hx].
    + cbn [In]. rewrite IH. split.
      * intros [<- | (j & v & -> & Hj & Hv)].
        -- exists 0%nat, x. repeat split; [ lia | exact Hx ].
        -- exists (S j), v. repeat split; [ lia | exact Hj | exact Hv ].
      * intros (j & v & -> & Hj & Hv). destruct j as [ | j ].
        -- left. lia.
        -- right. exists j, v. repeat split; [ lia | exact Hj | exact Hv ].
    + rewrite IH. split.
      * intros (j & v & -> & Hj & Hv).
        exists (S j), v. repeat split; [ lia | exact Hj | exact Hv ].
      * intros (j & v & -> & Hj & Hv). destruct j as [ | j ].
        -- cbn in Hj. injection Hj as <-. lia.
        -- exists j, v. repeat split; [ lia | exact Hj | exact Hv ].
Qed.

(** The candidate points of [cluster] are exactly the foreground pixels:
    on an [h x w] mask, [(y, x)] is collected if and only if it lies inside
    the mask and the element at row [y], column [x] is positive. *)
Theorem where_positive_spec (array : ndarray Z) (h w : nat) (y x : Z) :
  shape array = [h; w] -> length (data array) = (h * w)%nat ->
  (In (y, x) (where_positive array)
   <-> (0 <= y < Z.of_nat h)%Z /\ (0 <= x < Z.of_nat w)%Z /\
       exists v, nth_error (data array) (Z.to_nat y * w + Z.to_nat x)
                 = Some v /\ (0 < v)%Z).
Proof.
  intros Hshape Hlen. unfold where_positive. rewrite Hshape.
  rewrite in_map_iff. split.
  - intros (k & Hk & Hin). apply positive_from_spec in Hin.
    destruct Hin as (j & v & -> & Hj & Hv). cbn [Nat.add] in Hk.
    assert (Hjlt : (j < h * w)%nat).
    { rewrite <- Hlen. apply nth_error_Some. congruence. }
    assert (Hw : w <> 0%nat) by (intros ->; lia).
    injection Hk as <- <-.
    pose proof (Nat.mod_upper_bound j w Hw) as Hmod.
    assert (Hdiv : (j / w < h)%nat).
    { apply Nat.Div0.div_lt_upper_bound. lia. }
    repeat split; try lia.
    exists v. split; [ | exact Hv ].
    rewrite !Nat2Z.id.
    replace (j / w * w + j mod w)%nat with j; [ exact Hj | ].
    rewrite (Nat.div_mod_eq j w) at 1. lia.
  - intros ([Hy0 Hy] & [Hx0 Hx] & v & Hnth & Hv).
    exists (Z.to_nat y * w + Z.to_nat x)%nat. split.
    + assert (Hw : w <> 0%nat) by lia.
      rewrite Nat.div_add_l by exact Hw.
      rewrite Nat.div_small by lia.
      rewrite (Nat.add_comm (Z.to_nat y * w)), Nat.Div0.mod_add,
        Nat.mod_small by lia.
      f_equal; lia.
    + apply positive_from_spec. exists (Z.to_nat y * w + Z.to_nat x)%nat, v.
      repeat split; [ exact Hnth | exact Hv ].
Qed.

Lemma where_positive_spec_witness :
  In (1, 1)%Z (where_positive corner_mask)
  <-> (0 <= 1 < Z.of_nat 2)%Z /\ (0 <= 1 < Z.of_nat 2)%Z /\
      exists v, nth_error (data corner_mask) (Z.to_nat 1 * 2 + Z.to_nat 1)
                = Some v /\ (0 < v)%Z.
Proof.
  apply (@where_positive_spec corner_mask 2 2 1 1); reflexivity.
Defined.

(** Without subsampling ([max_mask_pts] infinite) all foreground pixels
    are handed to the fit, and the number of components is at least 1, at
    most the number of pixels (and at most [n_clusters] when that is
    positive).  With two foreground pixels or more the fit is therefore
    never refused for lack of samples, and [cluster] returns the truncated
    means of the EM iteration, or its exception; with a single foreground
    pixel the fit is refused, since it takes two samples at least. *)
Theorem cluster_without_subsampling
    (shuffle : list (Z * Z) -> list (Z * Z))
    (em_means : Z -> list (Z * Z) -> result (list (Q * Q)))
    (array : ndarray Z) (n_clusters : Z) :
  ndim array = 2%nat -> where_positive array <> [] ->
  exists k,
    fit_arguments shuffle array n_clusters None
    = Some (k, where_positive array) /\
    (1 <= k <= len (where_positive array))%Z /\
    ((1 <= n_clusters)%Z -> (k <= n_clusters)%Z) /\
    ((2 <= len (where_positive array))%Z ->
     cluster shuffle em_means array n_clusters None
     = bind (em_means k (where_positive array))
            (fun means =>
               Ok (map (fun m => (np.astype_int (fst m), np.astype_int (snd m)))
                       means))) /\
    (len (where_positive array) = 1%Z ->
     cluster shuffle em_means array n_clusters None = Raise ValueError).
Proof.
  intros Hdim Hne.
  assert (Hlen : (1 <= len (where_positive array))%Z).
  { unfold len. destruct (where_positive array); [ contradiction | ].
    cbn [length]. lia. }
  exists (Z.max (Z.min n_clusters (len (where_positive array))) 1).
  assert (Hargs : fit_arguments shuffle array n_clusters None
                  = Some (Z.max (Z.min n_clusters (len (where_positive array))) 1,
                          where_positive array)).
  { unfold fit_arguments.
    destruct (Z.eqb_spec (len (where_positive array)) 0); [ lia | reflexivity ]. }
  split; [ exact Hargs | ]. split; [ lia | ]. split; [ lia | ].
  unfold cluster. rewrite Hdim, Hargs. cbn [Nat.eqb assert bind].
  unfold GaussianMixture_fit_means. split.
  - intros H2.
    destruct (Z.ltb_spec (len (where_positive array)) 2); [ lia | ].
    destruct (Z.ltb_spec (len (where_positive array))
                (Z.max (Z.min n_clusters (len (where_positive array))) 1));
      [ lia | ].
    destruct (Z.ltb_spec
                (Z.max (Z.min n_clusters (len (where_positive array))) 1) 1);
      [ lia | reflexivity ].
  - intros H1. rewrite H1. reflexivity.
Qed.

Lemma cluster_without_subsampling_witness :
  cluster no_shuffle single_component_means corner_mask 1 None
  = Ok [(0, 0)]%Z.
Proof.
  destruct (@cluster_without_subsampling no_shuffle single_component_means
              corner_mask 1 eq_refl ltac:(discriminate))
    as (k & Hargs & _ & _ & H & _).
  injection Hargs as <-.
  rewrite H; [ reflexivity | discriminate ].
Defined.

Lemma slice_to_length {A} (n : Z) (l : list A) :
  (0 <= n <= len l)%Z -> len (slice_to n l) = n.
Proof.
  intros Hn. unfold slice_to, len in *.
  destruct (Z.ltb_spec n 0); [ lia | ].
  rewrite length_firstn. lia.
Qed.

(** Subsampling draws without replacement from the foreground pixels: with
    a non-negative [max_mask_pts], the sample matrix handed to the fit has
    [min(pixel count, max_mask_pts)] rows, and together with the rows left
    out it is a rearrangement of the foreground pixels. *)
Theorem cluster_subsample_rows
    (shuffle : list (Z * Z) -> list (Z * Z))
    (array : ndarray Z) (n_clusters max_mask_pts : Z) :
  (forall c, Permutation c (shuffle c)) ->
  where_positive array <> [] -> (0 <= max_mask_pts)%Z ->
  exists k c rest,
    fit_arguments shuffle array n_clusters (Some max_mask_pts) = Some (k, c) /\
    len c = Z.min (len (where_positive array)) max_mask_pts /\
    Permutation (c ++ rest) (where_positive array).
Proof.
  intros Hperm Hne Hm.
  set (fg := where_positive array) in *.
  assert (Hlen : (1 <= len fg)%Z).
  { unfold len. destruct fg; [ contradiction | cbn [length]; lia ]. }
  set (n := Z.min (len fg) max_mask_pts).
  exists (Z.max (Z.min n_clusters (len fg)) 1),
    (slice_to n (shuffle fg)), (skipn (Z.to_nat n) (shuffle fg)).
  split; [ | split ].
  - unfold fit_arguments. fold fg.
    destruct (Z.eqb_spec (len fg) 0); [ lia | reflexivity ].
  - apply slice_to_length. unfold len.
    rewrite <- (Permutation_length (Hperm fg)). fold (len fg). lia.
  - unfold slice_to. destruct (Z.ltb_spec n 0); [ lia | ].
    rewrite firstn_skipn. symmetry. apply Hperm.
Qed.

Lemma cluster_subsample_rows_witness :
  exists k c rest,
    fit_arguments (@rev (Z * Z)) corner_mask 1 (Some 2%Z) = Some (k, c) /\
    len c = Z.min (len (where_positive corner_mask)) 2 /\
    Permutation (c ++ rest) (where_positive corner_mask).
Proof.
  apply (@cluster_subsample_rows (@rev (Z * Z)) corner_mask 1 2).
  - intros c. apply Permutation_rev.
  - discriminate.
  - discriminate.
Defined.

(** The component count is capped by the number of foreground pixels, not
    by the number of rows that survive the subsampling: whenever
    [0 <= max_mask_pts < max(min(n_clusters, pixel count), 1)] on a mask
    with a foreground pixel, the fit is asked for more components than it
    gets samples and [cluster] raises [ValueError].  In particular
    [max_mask_pts = 0] always raises. *)
Theorem cluster_subsample_too_small
    (shuffle : list (Z * Z) -> list (Z * Z))
    (em_means : Z -> list (Z * Z) -> result (list (Q * Q)))
    (array : ndarray Z) (n_clusters max_mask_pts : Z) :
  (forall c, Permutation c (shuffle c)) ->
  ndim array = 2%nat -> where_positive array <> [] ->
  (0 <= max_mask_pts
   < Z.max (Z.min n_clusters (len (where_positive array))) 1)%Z ->
  cluster shuffle em_means array n_clusters (Some max_mask_pts)
  = Raise ValueError.
Proof.
  intros Hperm Hdim Hne [Hm0 Hm].
  set (fg := where_positive array) in *.
  assert (Hlen : (1 <= len fg)%Z).
  { unfold len. destruct fg; [ contradiction | cbn [length]; lia ]. }
  unfold cluster. rewrite Hdim. cbn [Nat.eqb assert bind].
  unfold fit_arguments. fold fg.
  destruct (Z.eqb_spec (len fg) 0); [ lia | ].
  unfold GaussianMixture_fit_means.
  rewrite slice_to_length.
  - destruct (Z.ltb_spec (Z.min (len fg) max_mask_pts) 2); [ reflexivity | ].
    destruct (Z.ltb_spec (Z.min (len fg) max_mask_pts)
                (Z.max (Z.min n_clusters (len fg)) 1)); [ reflexivity | lia ].
  - unfold len. rewrite <- (Permutation_length (Hperm fg)). fold (len fg). lia.
Qed.

Lemma cluster_subsample_too_small_witness :
  cluster (@rev (Z * Z)) single_component_means corner_mask 1 (Some 0%Z)
  = Raise ValueError.
Proof.
  apply (@cluster_subsample_too_small (@rev (Z * Z)) single_component_means
           corner_mask 1 0).
  - intros c. apply Permutation_rev.
  - reflexivity.
  - discriminate.
  - split; [ discriminate | reflexivity ].
Defined.

(** With positive fitted shape parameters for the second component, the
    threshold of the mixture policy lies strictly between 0 and 1, and
    thresholding the same array again with the returned [tau] as a fixed
    threshold reproduces the mask: whenever the mixture policy returns, on
    an array of any shape, and it does return on a non-empty 2-D array. *)
Theorem threshold_mixture_then_fixed
    (otsu_level : list Z -> Z)
    (estimate : list Q -> list Z -> result bmm_fit)
    (array : ndarray Q) (a1 b1 a2 b2 pi1 pi2 : Q) (niter : Z) :
  data array <> [] ->
  estimate (np.flatten array) [0; 1]%Z
  = Ok (((a1, b1), (a2, b2)), (pi1, pi2), niter) ->
  0 < a2 -> 0 < b2 ->
  exists tau,
    0 < tau /\ tau < 1 /\
    (ndim array = 2%nat ->
     exists mask,
       threshold otsu_level estimate array (-2)
       = Ok (Mask_tau_mixture mask tau
               ((scipy.mk_beta a1 b1, pi1), (scipy.mk_beta a2 b2, pi2))) /\
       threshold otsu_level estimate array tau = Ok (Mask_tau mask tau)) /\
    (forall mask tau' mixture,
       threshold otsu_level estimate array (-2)
       = Ok (Mask_tau_mixture mask tau' mixture) ->
       tau' = tau /\
       mixture = ((scipy.mk_beta a1 b1, pi1), (scipy.mk_beta a2 b2, pi2)) /\
       threshold otsu_level estimate array tau = Ok (Mask_tau mask tau)).
Proof.
  intros Hne Hfit Ha Hb.
  assert (Hs : 0 < a2 + b2) by lra.
  assert (H0 : 0 < a2 / (a2 + b2)).
  { apply Qlt_shift_div_l; [ exact Hs | lra ]. }
  assert (H1 : a2 / (a2 + b2) < 1).
  { apply Qlt_shift_div_r; [ exact Hs | lra ]. }
  exists (a2 / (a2 + b2)).
  split; [ exact H0 | split; [ exact H1 | ] ].
  assert (Hmix : threshold otsu_level estimate array (-2)
                 = bind (cv2.inRange array (a2 / (a2 + b2)) 1)
                        (fun mask =>
                           Ok (Mask_tau_mixture mask (a2 / (a2 + b2))
                                 ((scipy.mk_beta a1 b1, pi1),
                                  (scipy.mk_beta a2 b2, pi2))))).
  { unfold threshold.
    replace (Qeq_bool (-2) (-1)) with false by reflexivity.
    replace (Qeq_bool (-2) (-2)) with true by reflexivity.
    rewrite Hfit. reflexivity. }
  assert (Hfix : threshold otsu_level estimate array (a2 / (a2 + b2))
                 = bind (cv2.inRange array (a2 / (a2 + b2)) 1)
                        (fun mask => Ok (Mask_tau mask (a2 / (a2 + b2))))).
  { unfold threshold.
    rewrite (@Qeq_bool_false (a2 / (a2 + b2)) (-1)) by (intros E; lra).
    rewrite (@Qeq_bool_false (a2 / (a2 + b2)) (-2)) by (intros E; lra).
    reflexivity. }
  rewrite Hmix, Hfix. split.
  - intros Hdim. rewrite (@inRange_matrix array _ _ Hdim Hne). cbn [bind].
    eexists. split; reflexivity.
  - intros mask tau' mixture.
    destruct (cv2.inRange array (a2 / (a2 + b2)) 1) as [m | e]; cbn [bind];
      [ | discriminate ].
    intros H. injection H as <- <- <-. repeat split.
Qed.

Lemma threshold_mixture_then_fixed_witness :
  exists tau,
    0 < tau /\ tau < 1 /\
    (ndim three_pixels = 2%nat ->
     exists mask,
       threshold cv2.otsu swapped_fit three_pixels (-2)
       = Ok (Mask_tau_mixture mask tau
               ((scipy.mk_beta 3 1, 1 # 2), (scipy.mk_beta 1 3, 1 # 2))) /\
       threshold cv2.otsu swapped_fit three_pixels tau
       = Ok (Mask_tau mask tau)) /\
    (forall mask tau' mixture,
       threshold cv2.otsu swapped_fit three_pixels (-2)
       = Ok (Mask_tau_mixture mask tau' mixture) ->
       tau' = tau /\
       mixture = ((scipy.mk_beta 3 1, 1 # 2), (scipy.mk_beta 1 3, 1 # 2)) /\
       threshold cv2.otsu swapped_fit three_pixels tau
       = Ok (Mask_tau mask tau)).
Proof.
  apply (@threshold_mixture_then_fixed cv2.otsu swapped_fit three_pixels
           3 1 1 3 (1 # 2) (1 # 2) 7%Z).
  - discriminate.
  - reflexivity.
  - reflexivity.
  - reflexivity.
Defined.

(** ** Heatmap overlay *)

Example overlay_tiny :
  overlay_heatmap grey_colormap tiny_image tiny_map
  = Ok {| shape := [3; 1; 2]%nat;
          data := [10 # 2; 275 # 2; 30 # 2; 295 # 2; 50 # 2; 315 # 2] |}.
Proof. vm_compute. reflexivity. Qed.

Lemma flat_map_block_length {A} (g : nat -> list A) (n s m : nat) :
  (forall i, (s <= i < s + m)%nat -> length (g i) = n) ->
  length (flat_map g (seq s m)) = (m * n)%nat.
Proof.
  revert s. induction m as [ | m IH ]; intros s Hg; cbn [seq flat_map].
  - reflexivity.
  - rewrite length_app, IH, Hg by (try lia; intros i Hi; apply Hg; lia).
    reflexivity.
Qed.

Lemma flat_map_block_nth {A} (g : nat -> list A) (d : A) (n s m i j : nat) :
  (forall i, (s <= i < s + m)%nat -> length (g i) = n) ->
  (i < m)%nat -> (j < n)%nat ->
  nth (i * n + j) (flat_map g (seq s m)) d = nth j (g (s + i)%nat) d.
Proof.
  revert s i. induction m as [ | m IH ]; intros s i Hg Hi Hj; [ lia | ].
  cbn [seq flat_map]. destruct i as [ | i ].
  - rewrite app_nth1 by (rewrite Hg; lia).
    rewrite Nat.add_0_r. reflexivity.
  - rewrite app_nth2 by (rewrite Hg; lia).
    rewrite Hg by lia.
    replace (S i * n + j - n)%nat with (i * n + j)%nat by lia.
    rewrite IH; [ | intros k Hk; apply Hg; lia | lia | exact Hj ].
    f_equal. f_equal. lia.
Qed.

Lemma tabulate3_length (d0 d1 d2 : nat) (f : nat -> nat -> nat -> Q) :
  length (data (tabulate3 d0 d1 d2 f)) = (d0 * (d1 * d2))%nat.
Proof.
  cbn [tabulate3 data]. apply flat_map_block_length. intros i _.
  apply flat_map_block_length. intros j _. rewrite length_map, length_seq.
  reflexivity.
Qed.

Lemma get3_tabulate3 (d0 d1 d2 : nat) (f : nat -> nat -> nat -> Q)
    (i j k : nat) :
  (i < d0)%nat -> (j < d1)%nat -> (k < d2)%nat ->
  get3 (tabulate3 d0 d1 d2 f) i j k = f i j k.
Proof.
  intros Hi Hj Hk. unfold get3. cbn [tabulate3 shape data].
  replace ((i * d1 + j) * d2 + k)%nat with (i * (d1 * d2) + (j * d2 + k))%nat
    by lia.
  rewrite (@flat_map_block_nth Q _ 0 (d1 * d2) 0 d0 i (j * d2 + k)).
  - cbn [Nat.add].
    rewrite (@flat_map_block_nth Q _ 0 d2 0 d1 j k).
    + cbn [Nat.add].
      rewrite (nth_indep _ 0 (f i j 0%nat)) by (rewrite length_map, length_seq; exact Hk).
      rewrite (map_nth (fun k0 => f i j k0)), seq_nth by exact Hk.
      reflexivity.
    + intros j' _. rewrite length_map, length_seq. reflexivity.
    + exact Hj.
    + exact Hk.
  - intros i' _. apply flat_map_block_length. intros j' _.
    rewrite length_map, length_seq. reflexivity.
  - exact Hi.
  - nia.
Qed.

Lemma broadcast_dim_same (d : nat) : broadcast_dim d d = Ok d.
Proof. unfold broadcast_dim. rewrite Nat.eqb_refl. reflexivity. Qed.

Lemma broadcast_index_id (d i : nat) :
  (i < d)%nat -> broadcast_index d i = i.
Proof.
  intros Hi. unfold broadcast_index.
  destruct (Nat.eqb_spec d 1); [ lia | reflexivity ].
Qed.

Lemma flat_map_uniform_nth {A B} (g : A -> list B) (n : nat) (l : list A)
    (d : A) (d' : B) (p c : nat) :
  (forall a, length (g a) = n) ->
  (p < length l)%nat -> (c < n)%nat ->
  nth (p * n + c) (flat_map g l) d' = nth c (g (nth p l d)) d'.
Proof.
  intros Hg. revert p. induction l as [ | a l IH ]; intros p Hp Hc;
    cbn [length] in Hp; [ lia | ].
  cbn [flat_map]. destruct p as [ | p ].
  - rewrite app_nth1 by (rewrite Hg; lia). reflexivity.
  - rewrite app_nth2 by (rewrite Hg; lia). rewrite Hg.
    replace (S p * n + c - n)%nat with (p * n + c)%nat by lia.
    cbn [nth]. apply IH; lia.
Qed.

Lemma rgb_length (c : Q * Q * Q * Q) : length (rgb c) = 3%nat.
Proof. destruct c as [[[r g] b] a]. reflexivity. Qed.

(** On a channel-first image of shape [(3, H, W)] and a map of shape
    [(H, W)] the overlay has the shape of the image, and its value at
    channel [c], row [y], column [x] is the mean of the image value there
    and 255 times the colormap's channel [c] at the map's value at
    [(y, x)]. *)
Theorem overlay_heatmap_pixel
    (colormap : Q -> Q * Q * Q * Q) (img map_ : ndarray Q)
    (H W c y x : nat) :
  shape img = [3%nat; H; W] ->
  shape map_ = [H; W] -> length (data map_) = (H * W)%nat ->
  (c < 3)%nat -> (y < H)%nat -> (x < W)%nat ->
  exists out,
    overlay_heatmap colormap img map_ = Ok out /\
    shape out = [3%nat; H; W] /\
    get3 out c y x
    = (get3 img c y x
       + nth c (rgb (colormap (nth (y * W + x) (data map_) 0))) 0 * 255) / 2.
Proof.
  intros Himg Hmap Hlen Hc Hy Hx.
  unfold overlay_heatmap, ndim. rewrite Himg, Hmap.
  cbn [length Nat.eqb hd assert bind].
  unfold transpose_1_2_0 at 1. rewrite Himg.
  unfold broadcast3, colormap_rgb, array_map. cbn [shape data tabulate3].
  rewrite Hmap. cbn [app].
  rewrite !broadcast_dim_same. cbn [bind].
  unfold transpose_2_0_1. cbn [shape tabulate3].
  eexists. split; [ reflexivity | ]. split; [ reflexivity | ].
  rewrite (@get3_tabulate3 3 H W _ c y x Hc Hy Hx).
  rewrite (@get3_tabulate3 H W 3 _ y x c Hy Hx Hc).
  rewrite (broadcast_index_id Hy), (broadcast_index_id Hx),
    (broadcast_index_id Hc).
  f_equal. f_equal.
  - change (get3 (tabulate3 H W 3 (fun j k i => get3 img i j k)) y x c
            = get3 img c y x).
    exact (@get3_tabulate3 H W 3 (fun j k i => get3 img i j k)
             y x c Hy Hx Hc).
  - unfold get3 at 1. cbn [shape data].
    etransitivity;
      [ exact (map_nth (fun v : Q => v * 255) _ 0 _) | cbv beta ].
    f_equal.
    apply (flat_map_uniform_nth (fun v => rgb (colormap v)) (data map_) 0 0).
    + intros v. apply rgb_length.
    + rewrite Hlen. nia.
    + exact Hc.
Qed.

Lemma overlay_heatmap_pixel_witness :
  exists out,
    overlay_heatmap grey_colormap tiny_image tiny_map = Ok out /\
    shape out = [3; 1; 2]%nat /\
    get3 out 1 0 1
    = (get3 tiny_image 1 0 1
       + nth 1 (rgb (grey_colormap (nth (0 * 2 + 1) (data tiny_map) 0))) 0
         * 255) / 2.
Proof.
  apply (@overlay_heatmap_pixel grey_colormap tiny_image tiny_map 1 2 1 0 1);
    try reflexivity; repeat constructor.
Defined.

Lemma tabulate3_Forall (P : Q -> Prop) (d0 d1 d2 : nat)
    (f : nat -> nat -> nat -> Q) :
  (forall i j k, P (f i j k)) -> Forall P (data (tabulate3 d0 d1 d2 f)).
Proof.
  intros Hf. cbn [tabulate3 data]. apply Forall_flat_map, Forall_forall.
  intros i _. apply Forall_flat_map, Forall_forall. intros j _.
  apply Forall_map, Forall_forall. intros k _. apply Hf.
Qed.

Lemma get3_Forall (P : Q -> Prop) (a : ndarray Q) (i j k : nat) :
  P 0 -> Forall P (data a) -> P (get3 a i j k).
Proof.
  intros H0 Hall. unfold get3.
  destruct (shape a) as [ | ? [ | d1 [ | d2 [ | ? ? ] ] ] ]; try exact H0.
  destruct (nth_in_or_default ((i * d1 + j) * d2 + k) (data a) 0) as [Hin | E].
  - rewrite Forall_forall in Hall. apply Hall, Hin.
  - rewrite E. exact H0.
Qed.

(** The overlay stays in the range of the image: when the image values lie
    in [[0, 255]] and the colormap's red, green and blue lie in [[0, 1]],
    every value of a returned overlay lies in [[0, 255]]. *)
Theorem overlay_heatmap_range
    (colormap : Q -> Q * Q * Q * Q) (img map_ out : ndarray Q) :
  (forall v, Forall (fun c => 0 <= c /\ c <= 1) (rgb (colormap v))) ->
  Forall (fun p => 0 <= p /\ p <= 255) (data img) ->
  overlay_heatmap colormap img map_ = Ok out ->
  Forall (fun p => 0 <= p /\ p <= 255) (data out).
Proof.
  intros Hcm Himg. unfold overlay_heatmap.
  destruct (assert (ndim img =? 3)%nat) as [ [] | ]; cbn [bind];
    [ | discriminate ].
  destruct (assert (ndim map_ =? 2)%nat) as [ [] | ]; cbn [bind];
    [ | discriminate ].
  destruct (assert (hd 0%nat (shape img) =? 3)%nat) as [ [] | ]; cbn [bind];
    [ | discriminate ].
  set (P := fun p : Q => 0 <= p /\ p <= 255).
  assert (P0 : P 0) by (split; discriminate).
  assert (HT : Forall P (data (transpose_1_2_0 img))).
  { unfold transpose_1_2_0.
    destruct (shape img) as [ | ? [ | ? [ | ? [ | ? ? ] ] ] ]; try exact Himg.
    apply tabulate3_Forall. intros i j k. apply get3_Forall; assumption. }
  assert (HH : Forall P (data (array_map (fun v => v * 255)
                                 (colormap_rgb colormap map_)))).
  { cbn [array_map colormap_rgb data]. apply Forall_map, Forall_flat_map.
    apply Forall_forall. intros v _.
    eapply Forall_impl; [ | apply Hcm ]. cbn beta.
    intros c [Hc0 Hc1]. unfold P. split; lra. }
  unfold broadcast3.
  destruct (shape (transpose_1_2_0 img)) as [ | a0 [ | a1 [ | a2 [ | ? ? ] ] ] ];
    try discriminate.
  destruct (shape (array_map (fun v => v * 255) (colormap_rgb colormap map_)))
    as [ | b0 [ | b1 [ | b2 [ | ? ? ] ] ] ]; try discriminate.
  destruct (broadcast_dim a0 b0) as [d0 | ]; cbn [bind]; [ | discriminate ].
  destruct (broadcast_dim a1 b1) as [d1 | ]; cbn [bind]; [ | discriminate ].
  destruct (broadcast_dim a2 b2) as [d2 | ]; cbn [bind]; [ | discriminate ].
  intros H. injection H as <-.
  unfold transpose_2_0_1. cbn [shape tabulate3].
  apply tabulate3_Forall. intros k i j. apply get3_Forall; [ exact P0 | ].
  apply tabulate3_Forall. intros i' j' k'.
  pose proof (@get3_Forall P (transpose_1_2_0 img)
                (broadcast_index a0 i') (broadcast_index a1 j')
                (broadcast_index a2 k') P0 HT) as [Ha0 Ha1].
  pose proof (@get3_Forall P (array_map (fun v => v * 255)
                                (colormap_rgb colormap map_))
                (broadcast_index b0 i') (broadcast_index b1 j')
                (broadcast_index b2 k') P0 HH) as [Hb0 Hb1].
  unfold P. unfold Qdiv. change (/ 2) with (1 # 2). split; lra.
Qed.

Lemma grey_colormap_unit (v : Q) :
  Forall (fun c => 0 <= c /\ c <= 1) (rgb (grey_colormap v)).
Proof.
  assert (H : 0 <= Qmax 0 (Qmin v 1) /\ Qmax 0 (Qmin v 1) <= 1).
  { split; [ apply Q.le_max_l | ].
    apply Q.max_lub; [ discriminate | apply Q.le_min_r ]. }
  unfold grey_colormap. cbn [rgb]. repeat constructor; apply H.
Qed.

Lemma overlay_heatmap_range_witness :
  Forall (fun p => 0 <= p /\ p <= 255)
         [10 # 2; 275 # 2; 30 # 2; 295 # 2; 50 # 2; 315 # 2].
Proof.
  apply (@overlay_heatmap_range grey_colormap tiny_image tiny_map
           {| shape := [3; 1; 2]%nat;
              data := [10 # 2; 275 # 2; 30 # 2; 295 # 2; 50 # 2; 315 # 2] |}).
  - apply grey_colormap_unit.
  - repeat constructor; discriminate.
  - vm_compute. reflexivity.
Defined.

Lemma broadcast_dim_cases (d d' : nat) :
  (exists e, broadcast_dim d d' = Ok e /\ ~ incompatible d d') \/
  (broadcast_dim d d' = Raise ValueError /\ incompatible d d').
Proof.
  unfold broadcast_dim, incompatible.
  destruct (Nat.eqb_spec d d') as [E | E].
  - left. eexists. split; [ reflexivity | ]. intros [H _]. contradiction.
  - destruct (Nat.eqb_spec d 1) as [E1 | E1].
    + left. eexists. split; [ reflexivity | ]. intros [_ [H _]]. contradiction.
    + destruct (Nat.eqb_spec d' 1) as [E2 | E2].
      * left. eexists. split; [ reflexivity | ].
        intros [_ [_ H]]. contradiction.
      * right. split; [ reflexivity | repeat split; assumption ].
Qed.

Lemma transpose_1_2_0_shape (a : ndarray Q) (d0 d1 d2 : nat) :
  shape a = [d0; d1; d2] -> shape (transpose_1_2_0 a) = [d1; d2; d0].
Proof. intros E. unfold transpose_1_2_0. rewrite E. reflexivity. Qed.

(** [overlay_heatmap] fails an assertion unless the image is 3-D with 3
    channels first and the map is 2-D; past the assertions it raises
    (a [ValueError]) exactly when the height or the width of the map
    neither equals that of the image nor is 1 on one side. *)
Theorem overlay_heatmap_errors
    (colormap : Q -> Q * Q * Q * Q) (img map_ : ndarray Q) :
  ((ndim img <> 3%nat \/ ndim map_ <> 2%nat \/ hd 0%nat (shape img) <> 3%nat)
   -> overlay_heatmap colormap img map_ = Raise AssertionError) /\
  (forall H W H' W',
      shape img = [3%nat; H; W] -> shape map_ = [H'; W'] ->
      (raises (overlay_heatmap colormap img map_)
       <-> incompatible H H' \/ incompatible W W') /\
      (incompatible H H' \/ incompatible W W' ->
       overlay_heatmap colormap img map_ = Raise ValueError)).
Proof.
  split.
  - intros Hbad. unfold overlay_heatmap.
    destruct (Nat.eqb_spec (ndim img) 3) as [E1 | E1]; [ | reflexivity ].
    destruct (Nat.eqb_spec (ndim map_) 2) as [E2 | E2]; [ | reflexivity ].
    destruct (Nat.eqb_spec (hd 0%nat (shape img)) 3) as [E3 | E3];
      [ | reflexivity ].
    destruct Hbad as [Hb | [Hb | Hb]]; contradiction.
  - intros H W H' W' Himg Hmap.
    unfold overlay_heatmap, ndim. rewrite Himg, Hmap.
    cbn [length Nat.eqb hd assert bind].
    unfold broadcast3, colormap_rgb, array_map. cbn [shape data].
    rewrite (transpose_1_2_0_shape _ Himg), Hmap. cbn [app].
    rewrite (broadcast_dim_same 3).
    unfold raises.
    destruct (broadcast_dim_cases H H') as [(e0 & E0 & N0) | [E0 I0]];
      rewrite E0; cbn [bind].
    + destruct (broadcast_dim_cases W W') as [(e1 & E1 & N1) | [E1 I1]];
        rewrite E1; cbn [bind].
      * split.
        -- split; [ intros [e He]; discriminate He
                  | intros [I | I]; contradiction ].
        -- intros [I | I]; contradiction.
      * split.
        -- split; [ intros _; right; exact I1
                  | intros _; eexists; reflexivity ].
        -- intros _. reflexivity.
    + split.
      * split; [ intros _; left; exact I0 | intros _; eexists; reflexivity ].
      * intros _. reflexivity.
Qed.

Lemma overlay_heatmap_errors_witness :
  overlay_heatmap grey_colormap tiny_image
    {| shape := [2; 3]%nat; data := [0; 0; 0; 0; 0; 0] |}
  = Raise ValueError.
Proof.
  apply (proj2 (proj2 (overlay_heatmap_errors grey_colormap tiny_image
                         {| shape := [2; 3]%nat; data := [0; 0; 0; 0; 0; 0] |})
                  1%nat 2%nat 2%nat 3%nat eq_refl eq_refl)).
  right. repeat split; discriminate.
Defined.

(** ** Accumulated mixtures: feeding and the curves of [plot] *)

Local Open Scope R_scope.

Lemma feeds_app (self : AccBetaMixtureModel.t)
    (ms1 ms2 : list AccBetaMixtureModel.mixture) :
  feeds self (ms1 ++ ms2) = bind (feeds self ms1) (fun s => feeds s ms2).
Proof.
  revert self. induction ms1 as [ | m ms1 IH ]; intros self; cbn.
  - reflexivity.
  - destruct (AccBetaMixtureModel.feed self m) as [s | e]; cbn;
      [ apply IH | reflexivity ].
Qed.

Lemma feeds_from (n_components : Z) (grid : list R)
    (ms done : list AccBetaMixtureModel.mixture) :
  (Forall (fun m => len m = n_components) ms ->
   feeds {| AccBetaMixtureModel.n_components := n_components;
            AccBetaMixtureModel.mixtures := done;
            AccBetaMixtureModel.x := grid |} ms
   = Ok {| AccBetaMixtureModel.n_components := n_components;
           AccBetaMixtureModel.mixtures := done ++ ms;
           AccBetaMixtureModel.x := grid |}) /\
  (forall s,
      feeds {| AccBetaMixtureModel.n_components := n_components;
               AccBetaMixtureModel.mixtures := done;
               AccBetaMixtureModel.x := grid |} ms = Ok s ->
      AccBetaMixtureModel.mixtures s = done ++ ms /\
      Forall (fun m => len m = n_components) ms).
Proof.
  revert done. induction ms as [ | m ms IH ]; intros done; cbn [feeds].
  - rewrite app_nil_r. split; [ reflexivity | ].
    intros s H. injection H as <-. split; [ reflexivity | constructor ].
  - unfold AccBetaMixtureModel.feed.
    cbn [AccBetaMixtureModel.n_components AccBetaMixtureModel.mixtures
         AccBetaMixtureModel.x].
    destruct (IH (done ++ [m])) as [IH1 IH2].
    rewrite <- app_assoc in IH1, IH2. cbn [app] in IH1, IH2.
    destruct (Z.eqb_spec (len m) n_components) as [E | E];
      cbn [assert bind].
    + split.
      * intros H. apply IH1. inversion H; assumption.
      * intros s H. destruct (IH2 s H) as [H1 H2].
        split; [ exact H1 | constructor; assumption ].
    + split.
      * intros H. inversion H; contradiction.
      * intros s H. discriminate H.
Qed.

(** Feeding a fresh accumulator succeeds exactly when every mixture has
    [n_components] entries; the accumulator then holds the mixtures in the
    order fed, so every mixture it ever holds has [n_components] entries. *)
Theorem feeds_keep_component_count
    (n_components : Z) (n_pts : nat)
    (ms : list AccBetaMixtureModel.mixture) :
  (Forall (fun m => len m = n_components) ms ->
   feeds (AccBetaMixtureModel.init n_components n_pts) ms
   = Ok {| AccBetaMixtureModel.n_components := n_components;
           AccBetaMixtureModel.mixtures := ms;
           AccBetaMixtureModel.x := AccBetaMixtureModel.linspace01 n_pts |}) /\
  (forall s, feeds (AccBetaMixtureModel.init n_components n_pts) ms = Ok s ->
             AccBetaMixtureModel.mixtures s = ms /\
             Forall (fun m => len m = n_components) ms).
Proof.
  unfold AccBetaMixtureModel.init.
  destruct (feeds_from n_components (AccBetaMixtureModel.linspace01 n_pts)
              ms []) as [Hok Hinv].
  cbn [app] in Hok, Hinv. split.
  - intros Hall. apply Hok, Hall.
  - intros s Hs. apply Hinv, Hs.
Qed.

Lemma feeds_keep_component_count_witness :
  feeds (AccBetaMixtureModel.init 2 2)
        [AccBetaMixtureModel.mix_a; AccBetaMixtureModel.mix_b;
         AccBetaMixtureModel.mix_c]
  = Ok {| AccBetaMixtureModel.n_components := 2;
          AccBetaMixtureModel.mixtures :=
            [AccBetaMixtureModel.mix_a; AccBetaMixtureModel.mix_b;
             AccBetaMixtureModel.mix_c];
          AccBetaMixtureModel.x := AccBetaMixtureModel.linspace01 2 |}.
Proof.
  apply (proj1 (feeds_keep_component_count 2 2
                  [AccBetaMixtureModel.mix_a; AccBetaMixtureModel.mix_b;
                   AccBetaMixtureModel.mix_c])).
  repeat constructor.
Defined.

Lemma at_nil (c i : nat) : at_ [] c i = 0.
Proof. unfold at_. destruct c; destruct i; reflexivity. Qed.

Lemma vadd_length (u v : list R) :
  length u = length v -> length (AccBetaMixtureModel.vadd u v) = length u.
Proof.
  revert v. induction u as [ | a u IH ]; intros [ | b v ]; cbn;
    intros H; try discriminate; [ reflexivity | ].
  f_equal. apply IH. lia.
Qed.

Lemma vadd_nth (u v : list R) (i : nat) :
  length u = length v ->
  nth i (AccBetaMixtureModel.vadd u v) 0 = nth i u 0 + nth i v 0.
Proof.
  revert v i. induction u as [ | a u IH ]; intros [ | b v ] i; cbn;
    intros H; try discriminate.
  - destruct i; lra.
  - destruct i; [ reflexivity | apply IH; lia ].
Qed.

Lemma sq_err_length (p m : list R) :
  length p = length m -> length (AccBetaMixtureModel.sq_err p m) = length p.
Proof.
  revert m. induction p as [ | a p IH ]; intros [ | b m ]; cbn;
    intros H; try discriminate; [ reflexivity | ].
  f_equal. apply IH. lia.
Qed.

Lemma sq_err_nth (p m : list R) (i : nat) :
  length p = length m ->
  nth i (AccBetaMixtureModel.sq_err p m) 0
  = (nth i p 0 - nth i m 0) * (nth i p 0 - nth i m 0).
Proof.
  revert m i. induction p as [ | a p IH ]; intros [ | b m ] i; cbn;
    intros H; try discriminate.
  - destruct i; lra.
  - destruct i; [ reflexivity | apply IH; lia ].
Qed.

Lemma nth_map_scale (k : R) (l : list R) (i : nat) :
  nth i (map (fun v => k * v) l) 0 = k * nth i l 0.
Proof.
  revert i. induction l as [ | a l IH ]; intros i; cbn.
  - destruct i; lra.
  - destruct i; [ reflexivity | apply IH ].
Qed.

Lemma clipped_pdf_length (grid : list R) (r : AccBetaMixtureModel.rv) :
  length (AccBetaMixtureModel.clipped_pdf grid r) = length grid.
Proof. apply length_map. Qed.

Lemma add_rows_spec (k g : nat) (rows terms : list (list R)) :
  shaped k g rows -> shaped k g terms ->
  exists rows',
    AccBetaMixtureModel.add_rows rows terms = Ok rows' /\
    shaped k g rows' /\
    forall c i, at_ rows' c i = at_ rows c i + at_ terms c i.
Proof.
  revert k terms. induction rows as [ | r rs IH ];
    intros k [ | t ts ] [Hl Hr] [Hl' Hr']; cbn in Hl, Hl'; subst k;
    try discriminate.
  - exists []. split; [ reflexivity | ]. split; [ split; [ reflexivity | constructor ] | ].
    intros c i. rewrite at_nil. lra.
  - inversion Hr as [ | ? ? Hr1 Hr2 ]; subst.
    inversion Hr' as [ | ? ? Ht1 Ht2 ]; subst.
    destruct (IH (length rs) ts) as (rest & E & [Hs1 Hs2] & Hv).
    { split; [ reflexivity | exact Hr2 ]. }
    { split; [ lia | exact Ht2 ]. }
    cbn [AccBetaMixtureModel.add_rows]. rewrite E. cbn [bind].
    eexists. split; [ reflexivity | ]. split.
    + split; [ cbn; lia | ].
      constructor; [ rewrite vadd_length; lia | exact Hs2 ].
    + intros [ | c ] i.
      * unfold at_. cbn [nth]. apply vadd_nth. lia.
      * apply (Hv c i).
Qed.

Lemma mean_terms_spec (grid : list R) (n : R)
    (mix : AccBetaMixtureModel.mixture) :
  shaped (length mix) (length grid)
         (AccBetaMixtureModel.mean_terms grid n mix) /\
  forall c i, (c < length mix)%nat ->
    at_ (AccBetaMixtureModel.mean_terms grid n mix) c i
    = 1 / n * density_at grid mix c i.
Proof.
  unfold AccBetaMixtureModel.mean_terms. split.
  - split; [ apply length_map | ].
    apply Forall_map, Forall_forall. intros rw _.
    rewrite length_map. apply clipped_pdf_length.
  - induction mix as [ | rw mix IH ]; intros c i Hc; cbn in Hc; [ lia | ].
    destruct c as [ | c ].
    + unfold at_, density_at. cbn [map nth]. apply nth_map_scale.
    + apply (IH c i). lia.
Qed.

Lemma sq_err_rows_spec (grid : list R) (mix : AccBetaMixtureModel.mixture)
    (means : list (list R)) :
  shaped (length mix) (length grid) means ->
  exists rows,
    AccBetaMixtureModel.sq_err_rows grid mix means = Ok rows /\
    shaped (length mix) (length grid) rows /\
    forall c i, (c < length mix)%nat ->
      at_ rows c i
      = (density_at grid mix c i - at_ means c i)
        * (density_at grid mix c i - at_ means c i).
Proof.
  revert means. induction mix as [ | [r w] mix IH ];
    intros means [Hl Hr]; cbn [length] in Hl.
  - exists []. split; [ reflexivity | ].
    split; [ split; [ reflexivity | constructor ] | ].
    intros c i Hc. cbn in Hc. lia.
  - destruct means as [ | m means ]; [ discriminate | ].
    inversion Hr as [ | ? ? Hm Hms ]; subst.
    destruct (IH means) as (rest & E & [Hs1 Hs2] & Hv).
    { split; [ cbn in Hl; lia | exact Hms ]. }
    cbn [AccBetaMixtureModel.sq_err_rows]. rewrite E. cbn [bind].
    eexists. split; [ reflexivity | ]. split.
    + split; [ cbn; lia | ].
      constructor; [ | exact Hs2 ].
      rewrite sq_err_length; rewrite clipped_pdf_length; [ reflexivity | lia ].
    + intros [ | c ] i Hc.
      * unfold at_, density_at. cbn [nth fst]. apply sq_err_nth.
        rewrite clipped_pdf_length. lia.
      * apply (Hv c i). cbn in Hc. lia.
Qed.

Lemma means_fold (grid : list R) (n : R) (k : nat)
    (rest : list AccBetaMixtureModel.mixture) (rows0 : list (list R)) :
  shaped k (length grid) rows0 ->
  Forall (fun m => length m = k) rest ->
  exists rows,
    fold_left
      (fun acc mix =>
         rows <- acc ;;
         AccBetaMixtureModel.add_rows rows
           (AccBetaMixtureModel.mean_terms grid n mix))
      rest (Ok rows0) = Ok rows /\
    shaped k (length grid) rows /\
    forall c i, (c < k)%nat ->
      at_ rows c i
      = at_ rows0 c i
        + Rsum (map (fun mix => 1 / n * density_at grid mix c i) rest).
Proof.
  intros Hs Hall. revert rows0 Hs.
  induction Hall as [ | m rest Hm _ IH ]; intros rows0 Hs.
  - exists rows0. split; [ reflexivity | ]. split; [ exact Hs | ].
    intros c i _. cbn. unfold Rsum. cbn. lra.
  - destruct (mean_terms_spec grid n m) as [Ht Hv]. rewrite Hm in Ht.
    destruct (@add_rows_spec k (length grid) rows0 _ Hs Ht)
      as (rows1 & E & Hs1 & Hv1).
    destruct (IH rows1 Hs1) as (rows & Ef & Hsf & Hvf).
    exists rows. split; [ cbn [fold_left bind]; rewrite E; exact Ef | ].
    split; [ exact Hsf | ].
    intros c i Hc. rewrite (Hvf c i Hc), Hv1, Hv by lia.
    unfold Rsum. cbn [map fold_right]. lra.
Qed.

Lemma sq_fold (grid : list R) (k : nat) (means : list (list R))
    (rest : list AccBetaMixtureModel.mixture) (rows0 : list (list R)) :
  shaped k (length grid) means ->
  shaped k (length grid) rows0 ->
  Forall (fun m => length m = k) rest ->
  exists rows,
    fold_left
      (fun acc mix =>
         rows <- acc ;;
         terms <- AccBetaMixtureModel.sq_err_rows grid mix means ;;
         AccBetaMixtureModel.add_rows rows terms)
      rest (Ok rows0) = Ok rows /\
    shaped k (length grid) rows /\
    forall c i, (c < k)%nat ->
      at_ rows c i
      = at_ rows0 c i
        + Rsum (map (fun mix =>
                       (density_at grid mix c i - at_ means c i)
                       * (density_at grid mix c i - at_ means c i)) rest).
Proof.
  intros Hmeans Hs Hall. revert rows0 Hs.
  induction Hall as [ | m rest Hm _ IH ]; intros rows0 Hs.
  - exists rows0. split; [ reflexivity | ]. split; [ exact Hs | ].
    intros c i _. unfold Rsum. cbn. lra.
  - assert (Hmeans' : shaped (length m) (length grid) means)
      by (rewrite Hm; exact Hmeans).
    destruct (@sq_err_rows_spec grid m means Hmeans')
      as (terms & Et & Ht & Hv).
    rewrite Hm in Ht.
    destruct (@add_rows_spec k (length grid) rows0 terms Hs Ht)
      as (rows1 & E & Hs1 & Hv1).
    destruct (IH rows1 Hs1) as (rows & Ef & Hsf & Hvf).
    exists rows. split; [ cbn [fold_left bind]; rewrite Et; cbn [bind];
                          rewrite E; exact Ef | ].
    split; [ exact Hsf | ].
    intros c i Hc. rewrite (Hvf c i Hc), Hv1, Hv by lia.
    unfold Rsum. cbn [map fold_right]. lra.
Qed.

(** What [plot] computes on an accumulator whose mixtures all have the
    length of the first one. *)
Lemma plot_curves (self : AccBetaMixtureModel.t)
    (first : AccBetaMixtureModel.mixture)
    (rest : list AccBetaMixtureModel.mixture) :
  AccBetaMixtureModel.mixtures self = first :: rest ->
  Forall (fun m => length m = length first) rest ->
  let grid := AccBetaMixtureModel.x self in
  let n := INR (length (first :: rest)) in
  exists means sq,
    shaped (length first) (length grid) means /\
    shaped (length first) (length grid) sq /\
    (forall c i, (c < length first)%nat ->
       at_ means c i
       = Rsum (map (fun mix => 1 / n * density_at grid mix c i)
                   (first :: rest))) /\
    (forall c i, (c < length first)%nat ->
       at_ sq c i
       = Rsum (map (fun mix =>
                      (density_at grid mix c i - at_ means c i)
                      * (density_at grid mix c i - at_ means c i))
                   (first :: rest))) /\
    AccBetaMixtureModel.plot self
    = Ok {| AccBetaMixtureModel.pdf_means := means;
            AccBetaMixtureModel.pdf_stdevs :=
              match rest with
              | [] => None
              | _ => Some (map (map (fun s => sqrt s / (n - 1))) sq)
              end |}.
Proof.
  intros Hmix Hall grid n.
  destruct (mean_terms_spec grid n first) as [Hs0 Hv0].
  destruct (@means_fold grid n (length first) rest _ Hs0 Hall)
    as (means & Em & Hsm & Hvm).
  destruct (@sq_err_rows_spec grid first means Hsm)
    as (sq0 & Eq0 & Hsq0 & Hvq0).
  destruct (@sq_fold grid (length first) means rest sq0 Hsm Hsq0 Hall)
    as (sq & Eq & Hsq & Hvq).
  exists means, sq.
  split; [ exact Hsm | ]. split; [ exact Hsq | ].
  split; [ | split ].
  - intros c i Hc. rewrite (Hvm c i Hc), Hv0 by exact Hc.
    unfold Rsum. cbn [map fold_right]. reflexivity.
  - intros c i Hc. rewrite (Hvq c i Hc), Hvq0 by exact Hc.
    unfold Rsum. cbn [map fold_right]. reflexivity.
  - unfold AccBetaMixtureModel.plot. rewrite Hmix.
    replace (0 <? len (first :: rest))%Z with true
      by (symmetry; apply Z.ltb_lt; unfold len; cbn [length]; lia).
    cbn [assert bind]. fold grid. fold n. rewrite Em. cbn [bind].
    destruct rest as [ | m rest' ].
    + replace (1 <? len [first])%Z with false by reflexivity. reflexivity.
    + replace (1 <? len (first :: m :: rest'))%Z with true
        by (symmetry; apply Z.ltb_lt; unfold len; cbn [length]; lia).
      rewrite Eq0. cbn [bind]. rewrite Eq. reflexivity.
Qed.

Lemma same_length_of_len (n : Z) (first : AccBetaMixtureModel.mixture)
    (rest : list AccBetaMixtureModel.mixture) :
  Forall (fun m => len m = n) (first :: rest) ->
  Forall (fun m => length m = length first) rest.
Proof.
  intros H. inversion H as [ | ? ? Hf Hr ]; subst.
  eapply Forall_impl; [ | exact Hr ]. cbn. unfold len. intros m Hm. lia.
Qed.

(** On an accumulator built by [feed]s, [plot] can only fail for lack of
    data: it raises (an assertion error) exactly when nothing was fed, and
    otherwise returns one mean curve per component, each with one value per
    grid point, with spread curves exactly when at least two mixtures were
    fed. *)
Theorem plot_after_feeds
    (n_components : Z) (n_pts : nat)
    (ms : list AccBetaMixtureModel.mixture) (s : AccBetaMixtureModel.t) :
  feeds (AccBetaMixtureModel.init n_components n_pts) ms = Ok s ->
  (ms = [] -> AccBetaMixtureModel.plot s = Raise AssertionError) /\
  (ms <> [] ->
   exists st,
     AccBetaMixtureModel.plot s = Ok st /\
     shaped (Z.to_nat n_components)
            (length (AccBetaMixtureModel.x s))
            (AccBetaMixtureModel.pdf_means st) /\
     (length ms = 1%nat -> AccBetaMixtureModel.pdf_stdevs st = None) /\
     ((2 <= length ms)%nat ->
      exists sd,
        AccBetaMixtureModel.pdf_stdevs st = Some sd /\
        shaped (Z.to_nat n_components)
               (length (AccBetaMixtureModel.x s)) sd)).
Proof.
  intros Hfeeds.
  destruct (proj2 (feeds_from n_components
                     (AccBetaMixtureModel.linspace01 n_pts) ms []) s Hfeeds)
    as [Hmix Hall].
  cbn [app] in Hmix.
  split.
  - intros ->. unfold AccBetaMixtureModel.plot. rewrite Hmix. reflexivity.
  - intros Hne. destruct ms as [ | first rest ]; [ contradiction | ].
    pose proof (same_length_of_len Hall) as Hsame.
    assert (Hk : length first = Z.to_nat n_components).
    { inversion Hall as [ | ? ? Hf _ ]; subst. unfold len. lia. }
    destruct (@plot_curves s first rest Hmix Hsame)
      as (means & sq & Hsm & Hsq & _ & _ & Hplot).
    rewrite Hk in Hsm, Hsq.
    eexists. split; [ exact Hplot | ]. cbn [AccBetaMixtureModel.pdf_means
                                            AccBetaMixtureModel.pdf_stdevs].
    split; [ exact Hsm | ]. split.
    + intros Hone. destruct rest; [ reflexivity | discriminate Hone ].
    + intros Htwo. destruct rest as [ | m rest' ]; [ cbn in Htwo; lia | ].
      eexists. split; [ reflexivity | ].
      destruct Hsq as [Hl Hr]. split; [ rewrite length_map; exact Hl | ].
      apply Forall_map. eapply Forall_impl; [ | exact Hr ].
      cbn. intros r Hrl. rewrite length_map. exact Hrl.
Qed.

Lemma plot_after_feeds_witness :
  (AccBetaMixtureModel.mixtures AccBetaMixtureModel.three_fed = [] ->
   AccBetaMixtureModel.plot AccBetaMixtureModel.three_fed
   = Raise AssertionError) /\
  (AccBetaMixtureModel.mixtures AccBetaMixtureModel.three_fed <> [] ->
   exists st,
     AccBetaMixtureModel.plot AccBetaMixtureModel.three_fed = Ok st /\
     shaped (Z.to_nat 2)
            (length (AccBetaMixtureModel.x AccBetaMixtureModel.three_fed))
            (AccBetaMixtureModel.pdf_means st) /\
     (length (AccBetaMixtureModel.mixtures AccBetaMixtureModel.three_fed)
      = 1%nat -> AccBetaMixtureModel.pdf_stdevs st = None) /\
     ((2 <= length (AccBetaMixtureModel.mixtures
                      AccBetaMixtureModel.three_fed))%nat ->
      exists sd,
        AccBetaMixtureModel.pdf_stdevs st = Some sd /\
        shaped (Z.to_nat 2)
               (length (AccBetaMixtureModel.x AccBetaMixtureModel.three_fed))
               sd)).
Proof.
  apply (@plot_after_feeds 2 2
           [AccBetaMixtureModel.mix_a; AccBetaMixtureModel.mix_b;
            AccBetaMixtureModel.mix_c] AccBetaMixtureModel.three_fed).
  reflexivity.
Defined.

Lemma Rsum_scale (k : R) (l : list R) :
  Rsum (map (fun v => k * v) l) = k * Rsum l.
Proof.
  unfold Rsum. induction l as [ | a l IH ]; cbn [map fold_right];
    [ lra | rewrite IH; lra ].
Qed.

Lemma densities_at_map (self : AccBetaMixtureModel.t) (c i : nat) :
  AccBetaMixtureModel.densities_at self c i
  = map (fun mix => density_at (AccBetaMixtureModel.x self) mix c i)
        (AccBetaMixtureModel.mixtures self).
Proof. reflexivity. Qed.

Lemma INR_length_pos {A} (a : A) (l : list A) : 0 < INR (length (a :: l)).
Proof. apply lt_0_INR. cbn. lia. Qed.

(** The mean curve of [plot] is the pointwise average, over the fed
    mixtures, of the component's density clamped to [0, 50]. *)
Theorem plot_mean_is_average (self : AccBetaMixtureModel.t)
    (first : AccBetaMixtureModel.mixture)
    (rest : list AccBetaMixtureModel.mixture) (c i : nat) :
  AccBetaMixtureModel.mixtures self = first :: rest ->
  Forall (fun m => length m = length first) rest ->
  (c < length first)%nat ->
  exists st,
    AccBetaMixtureModel.plot self = Ok st /\
    at_ (AccBetaMixtureModel.pdf_means st) c i
    = Rsum (AccBetaMixtureModel.densities_at self c i)
      / INR (length (AccBetaMixtureModel.mixtures self)).
Proof.
  intros Hmix Hsame Hc.
  destruct (@plot_curves self first rest Hmix Hsame)
    as (means & sq & _ & _ & Hm & _ & Hplot).
  eexists. split; [ exact Hplot | ].
  cbn [AccBetaMixtureModel.pdf_means].
  rewrite (Hm c i Hc), densities_at_map, Hmix.
  rewrite <- (map_map (fun mix => density_at (AccBetaMixtureModel.x self) mix c i)
                      (fun v => 1 / INR (length (first :: rest)) * v)).
  rewrite Rsum_scale. field.
  apply Rgt_not_eq, INR_length_pos.
Qed.

Lemma plot_mean_is_average_witness :
  exists st,
    AccBetaMixtureModel.plot AccBetaMixtureModel.three_fed = Ok st /\
    at_ (AccBetaMixtureModel.pdf_means st) 0 1
    = Rsum (AccBetaMixtureModel.densities_at AccBetaMixtureModel.three_fed 0 1)
      / INR (length (AccBetaMixtureModel.mixtures
                       AccBetaMixtureModel.three_fed)).
Proof.
  apply (@plot_mean_is_average AccBetaMixtureModel.three_fed
           AccBetaMixtureModel.mix_a
           [AccBetaMixtureModel.mix_b; AccBetaMixtureModel.mix_c] 0 1).
  - reflexivity.
  - repeat constructor.
  - cbn. lia.
Defined.

Lemma at_map_in_range (f : R -> R) (rows : list (list R)) (k g c i : nat) :
  shaped k g rows -> (c < k)%nat -> (i < g)%nat ->
  at_ (map (map f) rows) c i = f (at_ rows c i).
Proof.
  intros [Hl Hr] Hc Hi. unfold at_.
  rewrite (nth_indep _ [] (map f [])) by (rewrite length_map; lia).
  rewrite map_nth.
  assert (Hg : length (nth c rows []) = g).
  { rewrite Forall_forall in Hr. apply Hr, nth_In. lia. }
  rewrite (nth_indep _ 0 (f 0)) by (rewrite length_map; lia).
  apply map_nth.
Qed.

(** The spread curve of [plot] is, at every grid point, the square root of
    the sum of squared deviations of the clamped densities from their
    mean, divided by [N - 1] (the division is outside the root). *)
Theorem plot_spread_formula (self : AccBetaMixtureModel.t)
    (first m : AccBetaMixtureModel.mixture)
    (rest : list AccBetaMixtureModel.mixture) (c i : nat) :
  AccBetaMixtureModel.mixtures self = first :: m :: rest ->
  Forall (fun m => length m = length first) (m :: rest) ->
  (c < length first)%nat ->
  (i < length (AccBetaMixtureModel.x self))%nat ->
  exists st sd,
    AccBetaMixtureModel.plot self = Ok st /\
    AccBetaMixtureModel.pdf_stdevs st = Some sd /\
    let N := INR (length (AccBetaMixtureModel.mixtures self)) in
    let d := AccBetaMixtureModel.densities_at self c i in
    let mean := Rsum d / N in
    at_ sd c i
    = sqrt (Rsum (map (fun v => (v - mean) * (v - mean)) d)) / (N - 1).
Proof.
  intros Hmix Hsame Hc Hi.
  destruct (@plot_curves self first (m :: rest) Hmix Hsame)
    as (means & sq & _ & Hsq & Hm & Hq & Hplot).
  eexists. eexists. split; [ exact Hplot | ].
  split; [ reflexivity | ]. cbv zeta.
  rewrite (at_map_in_range _ Hsq Hc Hi), (Hq c i Hc), (Hm c i Hc).
  rewrite densities_at_map, Hmix.
  rewrite <- (map_map (fun mix => density_at (AccBetaMixtureModel.x self) mix c i)
                      (fun v => 1 / INR (length (first :: m :: rest)) * v)).
  rewrite Rsum_scale.
  rewrite (map_map (fun mix => density_at (AccBetaMixtureModel.x self) mix c i)).
  replace (1 / INR (length (first :: m :: rest))
           * Rsum (map (fun mix => density_at (AccBetaMixtureModel.x self) mix c i)
                       (first :: m :: rest)))
    with (Rsum (map (fun mix => density_at (AccBetaMixtureModel.x self) mix c i)
                    (first :: m :: rest))
          / INR (length (first :: m :: rest)))
    by (field; apply Rgt_not_eq, INR_length_pos).
  reflexivity.
Qed.

Lemma plot_spread_formula_witness :
  exists st sd,
    AccBetaMixtureModel.plot AccBetaMixtureModel.three_fed = Ok st /\
    AccBetaMixtureModel.pdf_stdevs st = Some sd /\
    let N := INR (length (AccBetaMixtureModel.mixtures
                            AccBetaMixtureModel.three_fed)) in
    let d := AccBetaMixtureModel.densities_at
               AccBetaMixtureModel.three_fed 0 1 in
    let mean := Rsum d / N in
    at_ sd 0 1
    = sqrt (Rsum (map (fun v => (v - mean) * (v - mean)) d)) / (N - 1).
Proof.
  apply (@plot_spread_formula AccBetaMixtureModel.three_fed
           AccBetaMixtureModel.mix_a AccBetaMixtureModel.mix_b
           [AccBetaMixtureModel.mix_c] 0 1).
  - reflexivity.
  - repeat constructor.
  - cbn. lia.
  - change (AccBetaMixtureModel.x AccBetaMixtureModel.three_fed)
      with (AccBetaMixtureModel.linspace01 2).
    rewrite grid_two. cbn. lia.
Defined.

(** With exactly two mixtures the spread curve of [plot] coincides with the
    sample standard deviation (divisor [N - 1 = 1]) of the two clamped
    densities. *)
Theorem plot_spread_two_mixtures (self : AccBetaMixtureModel.t)
    (m1 m2 : AccBetaMixtureModel.mixture) (c i : nat) :
  AccBetaMixtureModel.mixtures self = [m1; m2] ->
  length m2 = length m1 ->
  (c < length m1)%nat ->
  (i < length (AccBetaMixtureModel.x self))%nat ->
  exists st sd,
    AccBetaMixtureModel.plot self = Ok st /\
    AccBetaMixtureModel.pdf_stdevs st = Some sd /\
    at_ sd c i
    = AccBetaMixtureModel.sample_stdev
        (AccBetaMixtureModel.densities_at self c i).
Proof.
  intros Hmix Hlen Hc Hi.
  assert (Hsame : Forall (fun m => length m = length m1) [m2])
    by (constructor; [ exact Hlen | constructor ]).
  destruct (@plot_curves self m1 [m2] Hmix Hsame)
    as (means & sq & _ & Hsq & Hm & Hq & Hplot).
  eexists. eexists. split; [ exact Hplot | ]. split; [ reflexivity | ].
  rewrite (at_map_in_range _ Hsq Hc Hi), (Hq c i Hc), (Hm c i Hc).
  unfold AccBetaMixtureModel.sample_stdev.
  rewrite densities_at_map, Hmix.
  cbn [map length]. unfold Rsum. cbn [fold_right].
  replace (INR 2) with 2 by (cbn; lra).
  replace (2 - 1) with 1 by lra.
  unfold Rdiv at 1. rewrite Rinv_1, Rmult_1_r.
  f_equal. field.
Qed.

Lemma plot_spread_two_mixtures_witness :
  exists st sd,
    AccBetaMixtureModel.plot
      {| AccBetaMixtureModel.n_components := 2;
         AccBetaMixtureModel.mixtures :=
           [AccBetaMixtureModel.mix_a; AccBetaMixtureModel.mix_b];
         AccBetaMixtureModel.x := [0; 1] |} = Ok st /\
    AccBetaMixtureModel.pdf_stdevs st = Some sd /\
    at_ sd 0 1
    = AccBetaMixtureModel.sample_stdev
        (AccBetaMixtureModel.densities_at
           {| AccBetaMixtureModel.n_components := 2;
              AccBetaMixtureModel.mixtures :=
                [AccBetaMixtureModel.mix_a; AccBetaMixtureModel.mix_b];
              AccBetaMixtureModel.x := [0; 1] |} 0 1).
Proof.
  apply (@plot_spread_two_mixtures
           {| AccBetaMixtureModel.n_components := 2;
              AccBetaMixtureModel.mixtures :=
                [AccBetaMixtureModel.mix_a; AccBetaMixtureModel.mix_b];
              AccBetaMixtureModel.x := [0; 1] |}
           AccBetaMixtureModel.mix_a AccBetaMixtureModel.mix_b 0 1).
  - reflexivity.
  - reflexivity.
  - cbn. lia.
  - cbn. lia.
Defined.

Lemma clip_bounds (v : R) : 0 <= AccBetaMixtureModel.clip v 0 50 <= 50.
Proof.
  unfold AccBetaMixtureModel.clip. split.
  - apply Rmin_glb; [ apply Rmax_r | lra ].
  - apply Rmin_r.
Qed.

Lemma density_at_bounds (grid : list R) (mix : AccBetaMixtureModel.mixture)
    (c i : nat) :
  0 <= density_at grid mix c i <= 50.
Proof.
  unfold density_at, AccBetaMixtureModel.clipped_pdf.
  destruct (Nat.lt_ge_cases i (length grid)) as [Hi | Hi].
  - rewrite (nth_indep _ 0
               (AccBetaMixtureModel.clip
                  (AccBetaMixtureModel.pdf
                     (fst (nth c mix
                             ({| AccBetaMixtureModel.pdf := fun _ => 0;
                                 AccBetaMixtureModel.mean := 0 |}, 0)))
                     0) 0 50))
      by (rewrite length_map; exact Hi).
    rewrite (map_nth (fun xi => AccBetaMixtureModel.clip _ 0 50)).
    apply clip_bounds.
  - rewrite nth_overflow by (rewrite length_map; exact Hi). lra.
Qed.

Lemma Rsum_bounds (lo hi : R) (l : list R) :
  Forall (fun v => lo <= v <= hi) l ->
  INR (length l) * lo <= Rsum l <= INR (length l) * hi.
Proof.
  unfold Rsum. induction 1 as [ | v l Hv _ IH ].
  - cbn. lra.
  - cbn [length fold_right]. rewrite S_INR. lra.
Qed.

(** Every value of a mean curve of [plot] lies in [[0, 50]]. *)
Theorem plot_mean_bounded (self : AccBetaMixtureModel.t)
    (first : AccBetaMixtureModel.mixture)
    (rest : list AccBetaMixtureModel.mixture) (c i : nat) :
  AccBetaMixtureModel.mixtures self = first :: rest ->
  Forall (fun m => length m = length first) rest ->
  (c < length first)%nat ->
  exists st,
    AccBetaMixtureModel.plot self = Ok st /\
    0 <= at_ (AccBetaMixtureModel.pdf_means st) c i <= 50.
Proof.
  intros Hmix Hsame Hc.
  destruct (@plot_curves self first rest Hmix Hsame)
    as (means & sq & _ & _ & Hm & _ & Hplot).
  eexists. split; [ exact Hplot | ].
  cbn [AccBetaMixtureModel.pdf_means]. rewrite (Hm c i Hc).
  rewrite <- (map_map (fun mix => density_at (AccBetaMixtureModel.x self) mix c i)
                      (fun v => 1 / INR (length (first :: rest)) * v)).
  rewrite Rsum_scale.
  set (d := map (fun mix => density_at (AccBetaMixtureModel.x self) mix c i)
                (first :: rest)).
  assert (Hd : Forall (fun v => 0 <= v <= 50) d).
  { unfold d. apply Forall_map, Forall_forall. intros mix _.
    apply density_at_bounds. }
  pose proof (Rsum_bounds Hd) as Hb.
  assert (Hlen : length d = length (first :: rest))
    by (unfold d; apply length_map).
  rewrite Hlen in Hb.
  pose proof (INR_length_pos first rest) as Hn.
  set (n := INR (length (first :: rest))) in *.
  assert (Hinv : 0 < 1 / n) by (apply Rdiv_lt_0_compat; lra).
  split.
  - apply Rmult_le_pos; lra.
  - replace 50 with (1 / n * (n * 50)) by (field; lra).
    apply Rmult_le_compat_l; lra.
Qed.

Lemma plot_mean_bounded_witness :
  exists st,
    AccBetaMixtureModel.plot AccBetaMixtureModel.three_fed = Ok st /\
    0 <= at_ (AccBetaMixtureModel.pdf_means st) 0 1 <= 50.
Proof.
  apply (@plot_mean_bounded AccBetaMixtureModel.three_fed
           AccBetaMixtureModel.mix_a
           [AccBetaMixtureModel.mix_b; AccBetaMixtureModel.mix_c] 0 1).
  - reflexivity.
  - repeat constructor.
  - cbn. lia.
Defined.

(** With a single fed mixture the mean curves of [plot] are the clamped
    density curves of that mixture's components, and no spread curve is
    computed. *)
Theorem plot_single_mixture (self : AccBetaMixtureModel.t)
    (m : AccBetaMixtureModel.mixture) :
  AccBetaMixtureModel.mixtures self = [m] ->
  AccBetaMixtureModel.plot self
  = Ok {| AccBetaMixtureModel.pdf_means :=
            map (fun rw => AccBetaMixtureModel.clipped_pdf
                             (AccBetaMixtureModel.x self) (fst rw)) m;
          AccBetaMixtureModel.pdf_stdevs := None |}.
Proof.
  intros Hmix. unfold AccBetaMixtureModel.plot. rewrite Hmix.
  cbn [len length Z.of_nat fold_left].
  replace (0 <? Z.pos (Pos.of_succ_nat 0))%Z with true by reflexivity.
  replace (1 <? Z.pos (Pos.of_succ_nat 0))%Z with false by reflexivity.
  cbn [assert bind]. do 2 f_equal. unfold AccBetaMixtureModel.mean_terms.
  apply map_ext. intros rw.
  rewrite <- (map_id (AccBetaMixtureModel.clipped_pdf _ _)) at 2.
  apply map_ext. intros v. cbn [INR]. field.
Qed.

Lemma plot_single_mixture_witness :
  AccBetaMixtureModel.plot
    {| AccBetaMixtureModel.n_components := 2;
       AccBetaMixtureModel.mixtures := [AccBetaMixtureModel.mix_b];
       AccBetaMixtureModel.x := [0; 1] |}
  = Ok {| AccBetaMixtureModel.pdf_means :=
            map (fun rw => AccBetaMixtureModel.clipped_pdf [0; 1] (fst rw))
                AccBetaMixtureModel.mix_b;
          AccBetaMixtureModel.pdf_stdevs := None |}.
Proof.
  apply (@plot_single_mixture
           {| AccBetaMixtureModel.n_components := 2;
              AccBetaMixtureModel.mixtures := [AccBetaMixtureModel.mix_b];
              AccBetaMixtureModel.x := [0; 1] |}
           AccBetaMixtureModel.mix_b).
  reflexivity.
Defined.
